(** * Poemtab: the poem service (services/asset.ts) and the background
      message relay, as a shallow embedding.

    The service is asynchronous JavaScript: every operation awaits at most
    one [fetch], may throw an [Error] carrying a message, and reads the
    persisted language preference or the IndexedDB [metadata] store.  The
    embedding threads an explicit [World] (persisted state, the answers of
    the network, the draws of [Math.random], and the log of the requests
    issued so far) through a small state-and-exception monad [Async].

    Strings are the bytes of the JavaScript strings in generalised UTF-8:
    UTF-8, with a UTF-16 surrogate that has no partner written as the three
    bytes ED A0..BF 80..BF.  The patterns the code searches for are ASCII,
    so prefix tests and replacement agree with their UTF-16 counterparts.
    [console.log]/[warn]/[error] print and return; the one call that is
    kept is the one whose template literal converts a payload value to a
    string, which can throw. *)

From Stdlib Require Import ZArith String Ascii List Bool Lia DecimalString
  DecimalPos.
From stdpp Require Import gmap strings list fin_maps.

Local Open Scope string_scope.

Set Warnings "-register-all,-abstract-large-number".

(** ** JavaScript numbers and values *)

(** The numbers the service handles are integers (indices, HTTP statuses,
    parsed line counts), [NaN] (a failed [parseInt]) and the infinities (a
    numeral beyond the range of doubles).  [Int z] is the double of value
    [z]; the integers that are doubles are those [round53] leaves alone,
    all integers up to 2^53 in magnitude among them.  Fractions do not
    arise from [parseInt] and are not modelled. *)
Inductive number : Type :=
| NaN
| Int (z : Z)
| Infinity (negative : bool).

(** A value as produced by [JSON.parse], by IndexedDB, or by a property
    access ([VUndefined] for a missing property). *)
Inductive value : Type :=
| VUndefined
| VNull
| VBool (b : bool)
| VNum (n : number)
| VStr (s : string)
| VArr (items : list value)
| VObj (fields : list (string * value)).

Definition LF : string := String (ascii_of_nat 10) EmptyString.

(** The decimal numeral of an integer. *)
Definition Z_toString (z : Z) : string := NilZero.string_of_int (Z.to_int z).

(** *** Doubles *)

(** Rounding a non-negative integer to 53 significant bits, to the nearest
    and on a tie to the even one: the rounding of IEEE-754 arithmetic. *)
Definition round53 (n : Z) : Z :=
  if (n <? 2 ^ 53)%Z then n
  else
    let e := (Z.log2 n - 52)%Z in
    let q := (n / 2 ^ e)%Z in
    let rem := (n mod 2 ^ e)%Z in
    let half := (2 ^ (e - 1))%Z in
    if (half <? rem)%Z || ((rem =? half)%Z && Z.odd q)
    then ((q + 1) * 2 ^ e)%Z
    else (q * 2 ^ e)%Z.

(** The double nearest to an integer; beyond the largest double, infinity. *)
Definition to_double (z : Z) : number :=
  let m := round53 (Z.abs z) in
  if (2 ^ 1024 <=? m)%Z then Infinity (z <? 0)%Z
  else Int (Z.sgn z * m).

(** The multiple of a power of ten with the fewest significant digits that
    still rounds to the double [m], the nearest to [m] when two do;
    [p] is the power of ten under trial, the largest first. *)
Fixpoint shortest_decimal (fuel : nat) (p m : Z) : Z :=
  match fuel with
  | O => m
  | S fuel' =>
      let lo := (m / p * p)%Z in
      let hi := (lo + p)%Z in
      let lo_ok := (round53 lo =? m)%Z in
      let hi_ok := (round53 hi =? m)%Z in
      if lo_ok && hi_ok then (if (m - lo <=? hi - m)%Z then lo else hi)
      else if lo_ok then lo
      else if hi_ok then hi
      else shortest_decimal fuel' (p / 10)%Z m
  end.

Fixpoint strip_zeros (fuel : nat) (c : Z) : Z :=
  match fuel with
  | O => c
  | S fuel' =>
      if (c mod 10 =? 0)%Z then strip_zeros fuel' (c / 10)%Z else c
  end.

(** [d.ddde+x], the form of integers from 10^21 on. *)
Definition exponent_form (c : Z) : string :=
  let n := String.length (Z_toString c) in
  match Z_toString (strip_zeros n c) with
  | EmptyString => EmptyString
  | String d EmptyString =>
      String d ("e+" ++ Z_toString (Z.of_nat (n - 1)))
  | String d more =>
      String d ("." ++ more ++ "e+" ++ Z_toString (Z.of_nat (n - 1)))
  end.

(** Number::toString of a positive integer double: the decimal numeral up
    to 2^53; beyond, the shortest digits that identify the double,
    followed by zeros, or in exponent form from 10^21 on. *)
Definition positive_toString (m : Z) : string :=
  if (m <? 2 ^ 53)%Z then Z_toString m
  else
    let n := String.length (Z_toString m) in
    let c := shortest_decimal n (10 ^ Z.of_nat (n - 1))%Z m in
    if (c <? 10 ^ 21)%Z then Z_toString c else exponent_form c.

(** Template-literal rendering of a number: [`${n}`]. *)
Definition number_toString (n : number) : string :=
  match n with
  | NaN => "NaN"
  | Int z =>
      if (z <? 0)%Z then "-" ++ positive_toString (- z)
      else positive_toString z
  | Infinity false => "Infinity"
  | Infinity true => "-Infinity"
  end.

(** ** Completions *)

(** How an evaluation ends: with a value, or with a thrown error, of which
    the message is kept. *)
Inductive Completion (A : Type) : Type :=
| Return (a : A)
| Throw (message : string).

Arguments Return {A} a.
Arguments Throw {A} message.

(** ToBoolean. *)
Definition truthy (v : value) : bool :=
  match v with
  | VUndefined | VNull => false
  | VBool b => b
  | VNum NaN => false
  | VNum (Int z) => negb (z =? 0)%Z
  | VNum (Infinity _) => true
  | VStr s => negb (String.eqb s "")
  | VArr _ | VObj _ => true
  end.

(** [a || b]. *)
Definition or_else (a b : value) : value := if truthy a then a else b.

(** Whether an object has a property of its own under [name]. *)
Definition hasOwnProperty (name : string) (fields : list (string * value))
  : bool :=
  existsb (fun kv => String.eqb (fst kv) name) fields.

(** The [TypeError] of a conversion that finds no primitive. *)
Definition not_primitive : string :=
  "Cannot convert object to primitive value".

(** ToString.  An array renders as its elements joined by commas, where
    [undefined] and [null] elements render as the empty string.  An object
    renders through the inherited [toString] as [[object Object]], unless a
    property of its own hides that method: a value out of JSON or IndexedDB
    is never callable, the inherited [valueOf] yields the object itself,
    and the conversion throws. *)
Fixpoint toString (v : value) : Completion string :=
  match v with
  | VUndefined => Return "undefined"
  | VNull => Return "null"
  | VBool true => Return "true"
  | VBool false => Return "false"
  | VNum n => Return (number_toString n)
  | VStr s => Return s
  | VArr items =>
      (fix commas (l : list value) : Completion string :=
         match l with
         | nil => Return ""
         | x :: rest =>
             match (match x with
                    | VUndefined | VNull => Return ""
                    | _ => toString x
                    end) with
             | Throw e => Throw e
             | Return sx =>
                 match rest with
                 | nil => Return sx
                 | _ :: _ =>
                     match commas rest with
                     | Throw e => Throw e
                     | Return sr => Return (sx ++ "," ++ sr)
                     end
                 end
             end
         end) items
  | VObj fields =>
      if hasOwnProperty "toString" fields then Throw not_primitive
      else Return "[object Object]"
  end.

Definition join_element (x : value) : Completion string :=
  match x with
  | VUndefined | VNull => Return ""
  | _ => toString x
  end.

(** [Array.prototype.join(sep)]: the elements are converted from left to
    right, and the first conversion that throws ends the join. *)
Fixpoint Array_join (sep : string) (l : list value) : Completion string :=
  match l with
  | nil => Return ""
  | x :: rest =>
      match join_element x with
      | Throw e => Throw e
      | Return sx =>
          match rest with
          | nil => Return sx
          | _ :: _ =>
              match Array_join sep rest with
              | Throw e => Throw e
              | Return sr => Return (sx ++ sep ++ sr)
              end
          end
      end
  end.

Definition Array_isArray (v : value) : bool :=
  match v with
  | VArr _ => true
  | _ => false
  end.

(** ** String operations used by the service *)

Fixpoint drop_chars (n : nat) (s : string) : string :=
  match n, s with
  | O, _ => s
  | S n', String _ rest => drop_chars n' rest
  | S _, EmptyString => EmptyString
  end.

(** [s.startsWith(p)]. *)
Definition startsWith (s p : string) : bool := String.prefix p s.

(** [s.replace(pat, repl)] for a string pattern and a replacement without
    [$] patterns: the first occurrence of [pat] is replaced. *)
Fixpoint String_replace (pat repl s : string) : string :=
  if String.prefix pat s then repl ++ drop_chars (String.length pat) s
  else match s with
       | EmptyString => EmptyString
       | String c rest => String c (String_replace pat repl rest)
       end.

(** *** parseInt *)

Definition byte_of (c : ascii) : N := N_of_ascii c.

(** Leading white space and line terminators, on the UTF-8 encoding:
    TAB LF VT FF CR SP; U+00A0; U+1680; U+2000..U+200A, U+2028, U+2029,
    U+202F; U+205F; U+3000; U+FEFF. *)
Fixpoint trimStart (s : string) : string :=
  match s with
  | EmptyString => s
  | String c1 r1 =>
      let b1 := byte_of c1 in
      if ((9 <=? b1) && (b1 <=? 13) || (b1 =? 32))%N then trimStart r1
      else
        match r1 with
        | String c2 r2 =>
            let b2 := byte_of c2 in
            if ((b1 =? 194) && (b2 =? 160))%N then trimStart r2
            else
              match r2 with
              | String c3 r3 =>
                  let b3 := byte_of c3 in
                  if ((b1 =? 225) && (b2 =? 154) && (b3 =? 128)
                      || (b1 =? 226) && (b2 =? 128)
                         && ((128 <=? b3) && (b3 <=? 138)
                             || (b3 =? 168) || (b3 =? 169) || (b3 =? 175))
                      || (b1 =? 226) && (b2 =? 129) && (b3 =? 159)
                      || (b1 =? 227) && (b2 =? 128) && (b3 =? 128)
                      || (b1 =? 239) && (b2 =? 187) && (b3 =? 191))%N
                  then trimStart r3
                  else s
              | EmptyString => s
              end
        | EmptyString => s
        end
  end.

(** The value of a digit in the given radix (10 or 16), if it is one. *)
Definition digit_value (radix : Z) (c : ascii) : option Z :=
  let b := Z.of_N (byte_of c) in
  let d := if ((48 <=? b) && (b <=? 57))%Z then Some (b - 48)%Z
           else if ((97 <=? b) && (b <=? 102))%Z then Some (b - 87)%Z
           else if ((65 <=? b) && (b <=? 70))%Z then Some (b - 55)%Z
           else None in
  match d with
  | Some k => if (k <? radix)%Z then Some k else None
  | None => None
  end.

(** The digits at the start of [s], most significant first. *)
Fixpoint leading_digits (radix : Z) (s : string) : list Z :=
  match s with
  | EmptyString => nil
  | String c rest =>
      match digit_value radix c with
      | Some k => k :: leading_digits radix rest
      | None => nil
      end
  end.

Definition digits_value (radix : Z) (ds : list Z) : Z :=
  fold_left (fun acc d => (acc * radix + d)%Z) ds 0%Z.

(** [parseInt(s)] with no radix argument: the integer the digits denote,
    as a double. *)
Definition parseInt (s : string) : number :=
  let s1 := trimStart s in
  let '(sign, s2) :=
    match s1 with
    | String "-" r => ((-1)%Z, r)
    | String "+" r => (1%Z, r)
    | _ => (1%Z, s1)
    end in
  let '(radix, s3) :=
    if String.prefix "0x" s2 || String.prefix "0X" s2
    then (16%Z, drop_chars 2 s2)
    else (10%Z, s2) in
  match leading_digits radix s3 with
  | nil => NaN
  | ds => to_double (sign * digits_value radix ds)
  end.

(** *** encodeURIComponent *)

Definition hex_digit (n : N) : ascii :=
  if (n <? 10)%N then ascii_of_N (48 + n) else ascii_of_N (55 + n).

(** A-Z a-z 0-9 - _ . ! ~ * ' ( ) are kept. *)
Definition uri_unreserved (c : ascii) : bool :=
  let b := byte_of c in
  ((65 <=? b) && (b <=? 90) || (97 <=? b) && (b <=? 122)
   || (48 <=? b) && (b <=? 57)
   || (b =? 45) || (b =? 95) || (b =? 46) || (b =? 33) || (b =? 126)
   || (b =? 42) || (b =? 39) || (b =? 40) || (b =? 41))%N.

(** Every other byte of the UTF-8 encoding becomes [%XX]. *)
Fixpoint percent_encode (s : string) : string :=
  match s with
  | EmptyString => EmptyString
  | String c rest =>
      if uri_unreserved c then String c (percent_encode rest)
      else
        let b := byte_of c in
        String "%" (String (hex_digit (b / 16)) (String (hex_digit (b mod 16))
          (percent_encode rest)))
  end.

(** Whether the string holds a surrogate without its partner: the byte ED
    followed by one of A0..BF, which UTF-8 proper never has. *)
Fixpoint lone_surrogate (s : string) : bool :=
  match s with
  | EmptyString => false
  | String c1 rest =>
      match rest with
      | EmptyString => false
      | String c2 _ =>
          ((byte_of c1 =? 237) && (160 <=? byte_of c2)
           && (byte_of c2 <=? 191))%N
          || lone_surrogate rest
      end
  end.

(** The [URIError] of V8. *)
Definition URI_malformed : string := "URI malformed".

(** [encodeURIComponent(s)]: a string with a lone surrogate has no UTF-8
    encoding, and the call throws. *)
Definition encodeURIComponent (s : string) : Completion string :=
  if lone_surrogate s then Throw URI_malformed
  else Return (percent_encode s).

(** ** Poem records *)

Inductive Language : Type :=
| chinese
| english.

(** [AssetData]; the fields marked [?] in the interface are options. *)
Record AssetData : Type := mkAssetData {
  title : value;
  content : value;
  author : value;
  dynasty : option value;
  translation : option string;
  source : option string;
  link : option string;
  language : option Language
}.

(** ** The world the service runs in *)

(** A request as [fetch] receives it: the URL, and the delay in ms after which
    an attached [AbortController] cancels it, if one is attached.  Method
    (always GET), headers and mode are left out: what the network answers
    is the world's to say. *)
Record FetchRequest : Type := mkFetchRequest {
  req_url : string;
  req_abort_after : option nat
}.

(** An HTTP response: [body] is what [response.json()] resolves to, or the
    message it rejects with.  A status is an integer of three digits, which
    a template literal renders as its decimal numeral. *)
Record Response : Type := mkResponse {
  status : Z;
  statusText : string;
  body : string + value
}.

(** [response.ok]: the status is in 200..299. *)
Definition ok (r : Response) : bool :=
  ((200 <=? status r) && (status r <=? 299))%Z.

Inductive Settlement : Type :=
| Rejects (message : string)
| Resolves (response : Response).

(** What the network does with a request: how long it takes to settle (ms)
    and how. *)
Record Answer : Type := mkAnswer {
  latency : nat;
  settlement : Settlement
}.

Inductive StoreName : Type :=
| images
| metadata.

(** ['all' | 'images' | 'metadata']. *)
Inductive CacheType : Type :=
| cache_all
| cache_images
| cache_metadata.

Record World : Type := mkWorld {
  (** chrome storage key [poemLanguage]; [None] when never written *)
  poemLanguage : option Language;
  (** IndexedDB object stores of [gac_extension_db] *)
  idb_images : gmap string value;
  idb_metadata : gmap string value;
  (** the answer to the n-th request issued, by URL *)
  upstream : nat -> string -> Answer;
  (** the n-th draw of [Math.random], as a numerator over 2^53 *)
  entropy : nat -> Z;
  draws : nat;
  (** the requests issued so far, oldest first *)
  requests : list FetchRequest
}.

Definition log_request (r : FetchRequest) (w : World) : World :=
  {| poemLanguage := poemLanguage w;
     idb_images := idb_images w;
     idb_metadata := idb_metadata w;
     upstream := upstream w;
     entropy := entropy w;
     draws := draws w;
     requests := (requests w ++ r :: nil)%list |}.

Definition next_draw (w : World) : World :=
  {| poemLanguage := poemLanguage w;
     idb_images := idb_images w;
     idb_metadata := idb_metadata w;
     upstream := upstream w;
     entropy := entropy w;
     draws := S (draws w);
     requests := requests w |}.

Definition store_of (name : StoreName) (w : World) : gmap string value :=
  match name with
  | images => idb_images w
  | metadata => idb_metadata w
  end.

Definition with_store (name : StoreName) (st : gmap string value) (w : World)
  : World :=
  {| poemLanguage := poemLanguage w;
     idb_images := match name with images => st | metadata => idb_images w end;
     idb_metadata :=
       match name with images => idb_metadata w | metadata => st end;
     upstream := upstream w;
     entropy := entropy w;
     draws := draws w;
     requests := requests w |}.

(** The persisted part of a world. *)
Definition persisted (w : World)
  : option Language * gmap string value * gmap string value :=
  (poemLanguage w, idb_images w, idb_metadata w).

(** ** Asynchronous computations that may throw *)

Definition Async (A : Type) : Type := World -> Completion A * World.

Definition ret {A : Type} (a : A) : Async A := fun w => (Return a, w).

Definition throw {A : Type} (message : string) : Async A :=
  fun w => (Throw message, w).

Definition bind {A B : Type} (m : Async A) (k : A -> Async B) : Async B :=
  fun w =>
    match m w with
    | (Return a, w') => k a w'
    | (Throw e, w') => (Throw e, w')
    end.

(** [try { body } catch (error) { handler(error.message) }]. *)
Definition try_catch {A : Type} (body : Async A) (handler : string -> Async A)
  : Async A :=
  fun w =>
    match body w with
    | (Return a, w') => (Return a, w')
    | (Throw e, w') => handler e w'
    end.

Notation "'await' x <- m ;; k" := (bind m (fun x => k))
  (at level 10, x name, m at level 99, k at level 200).

(** A conversion that may throw, inside an asynchronous function. *)
Definition lift {A : Type} (c : Completion A) : Async A := fun w => (c, w).

(** *** Platform primitives *)

(** The message of the [AbortError] Chrome rejects an aborted fetch with. *)
Definition AbortError_message : string := "signal is aborted without reason".

(** [fetch(url, {signal})]: the request is logged; when an abort timer is
    attached and fires before the network settles the request, the fetch
    rejects with the abort error; otherwise it settles as the network
    decides. *)
Definition fetch (url : string) (abort_after : option nat) : Async Response :=
  fun w =>
    let answer := upstream w (List.length (requests w)) url in
    let w' := log_request (mkFetchRequest url abort_after) w in
    let aborted := match abort_after with
                   | Some t => (t <? latency answer)%nat
                   | None => false
                   end in
    if aborted then (Throw AbortError_message, w')
    else match settlement answer with
         | Rejects m => (Throw m, w')
         | Resolves r => (Return r, w')
         end.

(** [await response.json()]. *)
Definition Response_json (r : Response) : Async value :=
  match body r with
  | inl m => throw m
  | inr v => ret v
  end.

(** An object lists its properties as the JSON text does; a repeated name
    keeps its last value. *)
Definition lookup_field (name : string) (fields : list (string * value))
  : value :=
  fold_left (fun acc kv => if String.eqb (fst kv) name then snd kv else acc)
            fields VUndefined.

(** [v.name] on a value other than [null] and [undefined], for the property
    names the service reads ([origin], [content], [author], [dynasty],
    [title], [lines]): none of them is a property of a number, a boolean, a
    string or an array. *)
Definition property (v : value) (name : string) : value :=
  match v with
  | VObj fields => lookup_field name fields
  | _ => VUndefined
  end.

(** [v.name]; on [null] and [undefined] V8 throws a [TypeError]. *)
Definition member (v : value) (name : string) : Async value :=
  match v with
  | VUndefined =>
      throw ("Cannot read properties of undefined (reading '" ++ name ++ "')")
  | VNull =>
      throw ("Cannot read properties of null (reading '" ++ name ++ "')")
  | _ => ret (property v name)
  end.

(** [Math.random()], as the numerator of the draw over 2^53. *)
Definition Math_random : Async Z :=
  fun w => (Return (entropy w (draws w) mod 2 ^ 53)%Z, next_draw w).

(** [Math.floor(r * length)] for the draw [r / 2^53]: the product of two
    doubles is the exact product rounded to 53 bits, and scaling by 2^53
    does not change which bits are kept. *)
Definition Math_floor_times (r : Z) (len : nat) : nat :=
  Z.to_nat (round53 (r * Z.of_nat len) / 2 ^ 53).

(** Modelled from the spec: the [Storage] class behind [poemLanguageStorage]
    (package [@extension/storage]) is not among the sources; its [get]
    returns the persisted value, or the default given at construction,
    here ['chinese'], when nothing was persisted. *)
Definition poemLanguageStorage_get : Async Language :=
  fun w => (Return (default chinese (poemLanguage w)), w).

(** [dbRead]: the value under [key], [undefined] when there is none.  The
    three store functions are modelled on a database that opens and whose
    transactions complete; a failing [indexedDB.open] or request, which
    would reject the promise, is outside the model. *)
Definition dbRead (storeName : StoreName) (key : string) : Async value :=
  fun w => (Return (default VUndefined (store_of storeName w !! key)), w).

Definition dbWrite (storeName : StoreName) (key : string) (v : value)
  : Async unit :=
  fun w =>
    (Return tt, with_store storeName (<[key := v]> (store_of storeName w)) w).

Definition dbClear (storeName : StoreName) : Async unit :=
  fun w => (Return tt, with_store storeName ∅ w).

(** ** Configuration *)

Definition DB_CONFIG_stores_images : StoreName := images.
Definition DB_CONFIG_stores_metadata : StoreName := metadata.

Definition STORAGE_KEYS_cacheTimestamp : string := "json_cache_timestamp".
Definition STORAGE_KEYS_currentIndex : string := "current_image_index".

Definition POEM_API_CONFIG_baseUrl : string := "https://v1.jinrishici.com".
Definition POEM_API_CONFIG_defaultCategory : string := "all".
Definition POEM_API_CONFIG_format : string := "json".
Definition POEM_API_CONFIG_timeout : nat := 5000.

Definition POETRYDB_API_CONFIG_baseUrl : string := "https://poetrydb.org".
Definition POETRYDB_API_CONFIG_endpoints_random : string := "/random/1".
Definition POETRYDB_API_CONFIG_endpoints_author : string := "/author".
Definition POETRYDB_API_CONFIG_endpoints_title : string := "/title".
Definition POETRYDB_API_CONFIG_endpoints_lineCount : string := "/linecount".

(** ** The local sample set *)

Definition SAMPLE_POEMS : list AssetData :=
  {| title := VStr "静夜思";
     content := VStr ("床前明月光，" ++ LF ++ "疑是地上霜。" ++ LF
                      ++ "举头望明月，" ++ LF ++ "低头思故乡。");
     author := VStr "李白";
     dynasty := Some (VStr "唐");
     translation := Some "夜深人静的时候，看见月光洒在窗前的地上，好像地上结了一层白霜。抬头仰望那明亮的月亮，低头不禁想起远方的家乡。";
     source := Some "全唐诗";
     link := Some "https://so.gushiwen.cn/shiwenv_45c396367f59.aspx";
     language := None |}
  :: {| title := VStr "登鹳雀楼";
     content := VStr ("白日依山尽，" ++ LF ++ "黄河入海流。" ++ LF
                      ++ "欲穷千里目，" ++ LF ++ "更上一层楼。");
     author := VStr "王之涣";
     dynasty := Some (VStr "唐");
     translation := Some "夕阳依傍着山脉慢慢地沉没，黄河朝着东海滚滚地奔流。如果想要看到千里之外的风光，那就要再登上一层楼。";
     source := Some "全唐诗";
     link := Some "https://so.gushiwen.cn/shiwenv_c90ff9ea5a71.aspx";
     language := None |}
  :: {| title := VStr "春晓";
     content := VStr ("春眠不觉晓，" ++ LF ++ "处处闻啼鸟。" ++ LF
                      ++ "夜来风雨声，" ++ LF ++ "花落知多少。");
     author := VStr "孟浩然";
     dynasty := Some (VStr "唐");
     translation := Some "春天里睡得正香，不知不觉天已破晓。四处都能听到鸟儿在歌唱。夜里刮风下雨的声音很响，不知道有多少花儿被风雨打落。";
     source := Some "全唐诗";
     link := Some "https://so.gushiwen.cn/shiwenv_5744c8530a77.aspx";
     language := None |}
  :: {| title := VStr "相思";
     content := VStr ("红豆生南国，" ++ LF ++ "春来发几枝？" ++ LF
                      ++ "愿君多采撷，" ++ LF ++ "此物最相思。");
     author := VStr "王维";
     dynasty := Some (VStr "唐");
     translation := Some "红豆生长在南方，春天来临时长出多少枝？希望你多采摘一些，因为这是最能表达相思之情的东西。";
     source := Some "全唐诗";
     link := Some "https://so.gushiwen.cn/shiwenv_6d23f9ea661b.aspx";
     language := None |}
  :: {| title := VStr "望庐山瀑布";
     content := VStr ("日照香炉生紫烟，" ++ LF ++ "遥看瀑布挂前川。" ++ LF
                      ++ "飞流直下三千尺，" ++ LF ++ "疑是银河落九天。");
     author := VStr "李白";
     dynasty := Some (VStr "唐");
     translation := Some "阳光照射着香炉峰，峰顶升起紫色的烟云。远远望去，庐山的瀑布挂在山前的溪流上。瀑布飞流直泻三千尺，好像是银河从九天之上倾泻而下。";
     source := Some "全唐诗";
     link := Some "https://so.gushiwen.cn/shiwenv_4c6721b21a9f.aspx";
     language := None |}
  :: nil.

(** What the unreachable read past the end of [SAMPLE_POEMS] is modelled by
    (JavaScript yields [undefined] there). *)
Definition no_poem : AssetData :=
  mkAssetData VUndefined VUndefined VUndefined None None None None None.

(** ** The poem service *)

(** [Array.isArray(poem.lines) ? poem.lines.join('\n') : poem.lines]. *)
Definition lines_content (lines : value) : Completion value :=
  match lines with
  | VArr items =>
      match Array_join LF items with
      | Return s => Return (VStr s)
      | Throw e => Throw e
      end
  | _ => Return lines
  end.

(** [index ? parseInt(index) : 0]; [parseInt] converts its argument to a
    string first. *)
Definition getCurrentIndex : Async number :=
  await index <- dbRead DB_CONFIG_stores_metadata STORAGE_KEYS_currentIndex ;;
  if truthy index then
    await text <- lift (toString index) ;;
    ret (parseInt text)
  else ret (Int 0).

(** [clearCache(type)].  The in-memory cache it empties along with the
    images is never filled or read by the service. *)
Definition clearCache (cacheType : CacheType) : Async unit :=
  await _u <- (match cacheType with
               | cache_all | cache_images => dbClear DB_CONFIG_stores_images
               | cache_metadata => ret tt
               end) ;;
  match cacheType with
  | cache_all | cache_metadata => dbClear DB_CONFIG_stores_metadata
  | cache_images => ret tt
  end.

Definition getRandomPoem : Async AssetData :=
  try_catch
    (let url := "https://v1.jinrishici.com/all.json" in
     await response <- fetch url (Some POEM_API_CONFIG_timeout) ;;
     if negb (ok response) then
       throw ("API请求失败: " ++ Z_toString (status response) ++ " "
              ++ statusText response)
     else
       await data <- Response_json response ;;
       await origin <- member data "origin" ;;
       await data_content <- member data "content" ;;
       await data_author <- member data "author" ;;
       let poem := {| title := or_else origin (VStr "无题");
                      content := data_content;
                      author := or_else data_author (VStr "佚名");
                      dynasty := Some (VStr "");
                      translation := None;
                      source := Some "今日诗词 API";
                      link := Some "https://www.jinrishici.com/";
                      language := Some chinese |} in
       (* the template literal of the log converts the content *)
       await _logged <- lift (toString (content poem)) ;;
       ret poem)
    (fun message => throw ("无法获取诗词数据: " ++ message)).

Definition getPoemByCategory (category : string) : Async AssetData :=
  try_catch
    (let url := POEM_API_CONFIG_baseUrl ++ "/" ++ category ++ "."
                ++ POEM_API_CONFIG_format in
     await response <- fetch url None ;;
     if negb (ok response) then
       throw ("API请求失败: " ++ Z_toString (status response))
     else
       await data <- Response_json response ;;
       await origin <- member data "origin" ;;
       await data_content <- member data "content" ;;
       await data_author <- member data "author" ;;
       await data_dynasty <- member data "dynasty" ;;
       ret {| title := if truthy origin then origin else VStr "无题";
              content := data_content;
              author := or_else data_author (VStr "佚名");
              dynasty := Some (or_else data_dynasty (VStr ""));
              translation := None;
              source := Some "今日诗词 API";
              link := Some "https://www.jinrishici.com/";
              language := Some chinese |})
    (fun message => throw ("无法获取分类诗词数据: " ++ message)).

Definition getPoem (index : Z) : Async AssetData :=
  if (index =? -1)%Z then getRandomPoem
  else if ((0 <=? index) && (index <? Z.of_nat (List.length SAMPLE_POEMS)))%Z
  then ret (default no_poem (SAMPLE_POEMS !! Z.to_nat index))
  else throw ("无效的诗词索引: " ++ number_toString (Int index)).

Definition fetchEnglishPoem : Async AssetData :=
  try_catch
    (let url := POETRYDB_API_CONFIG_baseUrl
                ++ POETRYDB_API_CONFIG_endpoints_random in
     await response <- fetch url None ;;
     if negb (ok response) then
       throw ("PoetryDB API请求失败: " ++ Z_toString (status response))
     else
       await data <- Response_json response ;;
       match data with
       | VArr (poem :: _) =>
           await poem_title <- member poem "title" ;;
           await poem_lines <- member poem "lines" ;;
           await poem_content <- lift (lines_content poem_lines) ;;
           await poem_author <- member poem "author" ;;
           await title_text <- lift (toString poem_title) ;;
           await encodedTitle <- lift (encodeURIComponent title_text) ;;
           ret {| title := or_else poem_title (VStr "Untitled");
                  content := poem_content;
                  author := or_else poem_author (VStr "Unknown");
                  dynasty := None;
                  translation := None;
                  source := Some "PoetryDB";
                  link := Some ("https://poetrydb.org/title/" ++ encodedTitle);
                  language := Some english |}
       | _ => throw "无效的PoetryDB响应数据"
       end)
    (fun message => throw ("无法获取英文诗歌数据: " ++ message)).

Definition fetchPoemByAuthor (author_name : string) : Async AssetData :=
  try_catch
    (await encodedAuthor <- lift (encodeURIComponent author_name) ;;
     let url := POETRYDB_API_CONFIG_baseUrl
                ++ POETRYDB_API_CONFIG_endpoints_author ++ "/" ++ encodedAuthor
                ++ "/title,author,lines" in
     await response <- fetch url None ;;
     if negb (ok response) then
       throw ("API请求失败: " ++ Z_toString (status response))
     else
       await poems <- Response_json response ;;
       match poems with
       | VArr (first :: others) =>
           let items := first :: others in
           await r <- Math_random ;;
           let randomIndex := Math_floor_times r (List.length items) in
           let poem := default VUndefined (items !! randomIndex) in
           await poem_title <- member poem "title" ;;
           await poem_lines <- member poem "lines" ;;
           await poem_content <- lift (lines_content poem_lines) ;;
           await poem_author <- member poem "author" ;;
           ret {| title := poem_title;
                  content := poem_content;
                  author := poem_author;
                  dynasty := None;
                  translation := None;
                  source := Some "PoetryDB";
                  link := Some ("https://poetrydb.org/author/" ++ encodedAuthor
                                ++ "/title,author,lines");
                  language := Some english |}
       | _ => throw ("未找到" ++ author_name ++ "的诗歌")
       end)
    (fun message =>
       throw ("无法获取" ++ author_name ++ "的诗歌数据: " ++ message)).

Definition fetchPoemByLineCount (lineCount : number) : Async AssetData :=
  try_catch
    (let url := POETRYDB_API_CONFIG_baseUrl
                ++ POETRYDB_API_CONFIG_endpoints_lineCount ++ "/"
                ++ number_toString lineCount ++ "/title,author,lines" in
     await response <- fetch url None ;;
     if negb (ok response) then
       throw ("API请求失败: " ++ Z_toString (status response))
     else
       await poems <- Response_json response ;;
       match poems with
       | VArr (first :: others) =>
           let items := first :: others in
           await r <- Math_random ;;
           let randomIndex := Math_floor_times r (List.length items) in
           let poem := default VUndefined (items !! randomIndex) in
           await poem_title <- member poem "title" ;;
           await poem_lines <- member poem "lines" ;;
           await poem_content <- lift (lines_content poem_lines) ;;
           await poem_author <- member poem "author" ;;
           ret {| title := poem_title;
                  content := poem_content;
                  author := poem_author;
                  dynasty := None;
                  translation := None;
                  source := Some "PoetryDB";
                  link := Some ("https://poetrydb.org/linecount/"
                                ++ number_toString lineCount);
                  language := Some english |}
       | _ => throw ("未找到" ++ number_toString lineCount ++ "行的诗歌")
       end)
    (fun message =>
       throw ("无法获取" ++ number_toString lineCount ++ "行的诗歌数据: "
              ++ message)).

Definition getRandomPoemWithLanguage : Async AssetData :=
  await languagePref <- poemLanguageStorage_get ;;
  match languagePref with
  | english => fetchEnglishPoem
  | chinese =>
      try_catch
        (let url := "https://v1.jinrishici.com/all.json" in
         await response <- fetch url None ;;
         if negb (ok response) then
           throw ("API请求失败: " ++ Z_toString (status response))
         else
           await data <- Response_json response ;;
           await origin <- member data "origin" ;;
           await data_content <- member data "content" ;;
           await data_author <- member data "author" ;;
           ret {| title := or_else origin (VStr "无题");
                  content := data_content;
                  author := or_else data_author (VStr "佚名");
                  dynasty := Some (VStr "");
                  translation := None;
                  source := Some "今日诗词 API";
                  link := Some "https://www.jinrishici.com/";
                  language := Some chinese |})
        (fun message => throw ("无法获取中文诗词数据: " ++ message))
  end.

Definition getPoemByCategoryWithLanguage (category : string)
  : Async AssetData :=
  await languagePref <- poemLanguageStorage_get ;;
  match languagePref with
  | english =>
      if startsWith category "author/" then
        let author_name := String_replace "author/" "" category in
        fetchPoemByAuthor author_name
      else if startsWith category "linecount/" then
        let lineCount := parseInt (String_replace "linecount/" "" category) in
        fetchPoemByLineCount lineCount
      else if String.eqb category "random" || String.eqb category "all" then
        fetchEnglishPoem
      else
        fetchEnglishPoem
  | chinese =>
      try_catch
        (let url := POEM_API_CONFIG_baseUrl ++ "/" ++ category ++ "."
                    ++ POEM_API_CONFIG_format in
         await response <- fetch url None ;;
         if negb (ok response) then
           throw ("API请求失败: " ++ Z_toString (status response))
         else
           await data <- Response_json response ;;
           await origin <- member data "origin" ;;
           await data_content <- member data "content" ;;
           await data_author <- member data "author" ;;
           await data_dynasty <- member data "dynasty" ;;
           ret {| title := or_else origin (VStr "无题");
                  content := data_content;
                  author := or_else data_author (VStr "佚名");
                  dynasty := Some (or_else data_dynasty (VStr ""));
                  translation := None;
                  source := Some "今日诗词 API";
                  link := Some "https://www.jinrishici.com/";
                  language := Some chinese |})
        (fun message => throw ("无法获取中文分类诗词数据: " ++ message))
  end.

(** ** The background message relay *)

(** A message as the new-tab page sends it: the request type and the
    payload fields the relay reads, with the types the page gives them, a
    string category and an integer index.  The relay reads the category
    only under [GET_POEM_BY_CATEGORY] and the index only under [GET_POEM];
    under the other request types their values are immaterial.  Messages
    that lack the field their request type reads, or carry it with another
    type, are outside the model. *)
Record Message : Type := mkMessage {
  msg_type : string;
  msg_category : string;
  msg_index : Z
}.

Inductive Payload : Type :=
| PoemData (poem : AssetData)
| NumberData (n : number).

(** [{success: true, data}] or [{success: false, error}]. *)
Inductive Envelope : Type :=
| Success (data : Payload)
| Failure (error : string).

Definition handleRequest (request : Message) : Async Payload :=
  if String.eqb (msg_type request) "GET_RANDOM_POEM" then
    await poem <- getRandomPoemWithLanguage ;; ret (PoemData poem)
  else if String.eqb (msg_type request) "GET_POEM_BY_CATEGORY" then
    await poem <- getPoemByCategoryWithLanguage (msg_category request) ;;
    ret (PoemData poem)
  else if String.eqb (msg_type request) "GET_POEM" then
    await poem <- getPoem (msg_index request) ;; ret (PoemData poem)
  else if String.eqb (msg_type request) "GET_CURRENT_INDEX" then
    await n <- getCurrentIndex ;; ret (NumberData n)
  else
    throw ("未知的请求类型: " ++ msg_type request).

(** The listener: [handleRequest().then(...).catch(...)], with what it
    passes to [sendResponse]. *)
Definition onMessage (request : Message) (w : World) : Envelope * World :=
  match handleRequest request w with
  | (Return response, w') => (Success response, w')
  | (Throw message, w') => (Failure message, w')
  end.

(** ** Worlds used in examples *)

Definition with_poemLanguage (pref : option Language) (w : World) : World :=
  {| poemLanguage := pref;
     idb_images := idb_images w;
     idb_metadata := idb_metadata w;
     upstream := upstream w;
     entropy := entropy w;
     draws := draws w;
     requests := requests w |}.

Definition json_response (v : value) : Answer :=
  mkAnswer 120 (Resolves (mkResponse 200 "OK" (inr v))).

Definition demo_poems : value :=
  VArr (VObj (("title", VStr "Hope") :: ("author", VStr "Emily Dickinson")
              :: ("lines", VArr (VStr "a" :: VStr "b" :: nil)) :: nil)
        :: VObj (("title", VStr "Fire and Ice")
                 :: ("author", VStr "Robert Frost")
                 :: ("lines", VArr (VStr "c" :: nil)) :: nil)
        :: nil).

(** A network where both services answer: the Chinese service with one
    verse, PoetryDB with a two-poem array for every query. *)
Definition demo_upstream (_ : nat) (url : string) : Answer :=
  if String.prefix "https://v1.jinrishici.com/" url then
    json_response
      (VObj (("content", VStr "床前明月光") :: ("origin", VStr "静夜思")
             :: ("author", VStr "李白") :: nil))
  else if String.prefix "https://poetrydb.org/" url then
    json_response demo_poems
  else mkAnswer 80 (Rejects "Failed to fetch").

Definition demo_world (pref : option Language) : World :=
  {| poemLanguage := pref;
     idb_images := ∅;
     idb_metadata := ∅;
     upstream := demo_upstream;
     entropy := fun _ => 0%Z;
     draws := 0;
     requests := nil |}.

(** The same network, six seconds late. *)
Definition slow_world (pref : option Language) : World :=
  {| poemLanguage := pref;
     idb_images := ∅;
     idb_metadata := ∅;
     upstream := fun n url =>
       mkAnswer 6000 (settlement (demo_upstream n url));
     entropy := fun _ => 0%Z;
     draws := 0;
     requests := nil |}.

(** ** The requests the clients issue *)

Definition chinese_random_request : FetchRequest :=
  mkFetchRequest "https://v1.jinrishici.com/all.json"
                 (Some POEM_API_CONFIG_timeout).

Definition chinese_untimed_request : FetchRequest :=
  mkFetchRequest "https://v1.jinrishici.com/all.json" None.

Definition chinese_category_request (category : string) : FetchRequest :=
  mkFetchRequest ("https://v1.jinrishici.com/" ++ category ++ ".json") None.

Definition english_random_request : FetchRequest :=
  mkFetchRequest "https://poetrydb.org/random/1" None.

(** The by-author request, for an author name already escaped. *)
Definition author_request (encodedAuthor : string) : FetchRequest :=
  mkFetchRequest ("https://poetrydb.org/author/" ++ encodedAuthor
                  ++ "/title,author,lines")
                 None.

Definition linecount_request (lineCount : number) : FetchRequest :=
  mkFetchRequest ("https://poetrydb.org/linecount/"
                  ++ number_toString lineCount ++ "/title,author,lines")
                 None.

(** The JSON payload the network answers the next request for [url] with,
    if it resolves it with a body that parses. *)
Definition payload (w : World) (url : string) : option value :=
  match settlement (upstream w (List.length (requests w)) url) with
  | Resolves r =>
      match body r with
      | inr data => Some data
      | inl _ => None
      end
  | Rejects _ => None
  end.

(** ** Effects and results of a computation *)

(** [m] issues exactly the requests [rs], in every world and whether it
    returns or throws. *)
Definition issues {A : Type} (rs : list FetchRequest) (m : Async A) : Prop :=
  forall w, requests (snd (m w)) = (requests w ++ rs)%list.

(** [m] leaves the persisted state as it found it. *)
Definition preserves {A : Type} (m : Async A) : Prop :=
  forall w, persisted (snd (m w)) = persisted w.

(** Whatever [m] returns satisfies [P]. *)
Definition ensures {A : Type} (P : A -> Prop) (m : Async A) : Prop :=
  forall w a, fst (m w) = Return a -> P a.

(** Whatever [m] throws satisfies [P]. *)
Definition fails_only {A : Type} (P : string -> Prop) (m : Async A) : Prop :=
  forall w e, fst (m w) = Throw e -> P e.

(** A message that carries [prefix] in front of its cause. *)
Definition wrapped (prefix e : string) : Prop :=
  exists cause, e = prefix ++ cause.

(** [m] behaves alike in worlds related by [R], and keeps them related. *)
Definition respects {A : Type} (R : World -> World -> Prop) (m : Async A)
  : Prop :=
  forall w1 w2, R w1 w2 ->
    fst (m w1) = fst (m w2) /\ R (snd (m w1)) (snd (m w2)).

(** Worlds that differ at most in the persisted language preference. *)
Definition same_but_preference (w1 w2 : World) : Prop :=
  idb_images w1 = idb_images w2 /\ idb_metadata w1 = idb_metadata w2
  /\ upstream w1 = upstream w2 /\ entropy w1 = entropy w2
  /\ draws w1 = draws w2 /\ requests w1 = requests w2.

(** Worlds that differ at most in the IndexedDB stores. *)
Definition same_but_idb (w1 w2 : World) : Prop :=
  poemLanguage w1 = poemLanguage w2
  /\ upstream w1 = upstream w2 /\ entropy w1 = entropy w2
  /\ draws w1 = draws w2 /\ requests w1 = requests w2.

(** ** Well-formedness of poem records *)






(** Records built with the Chinese mapping. *)
Definition chinese_mapped (poem : AssetData) : Prop :=
  truthy (title poem) = true /\ truthy (author poem) = true
  /\ language poem = Some chinese /\ source poem = Some "今日诗词 API".

(** Records built with the English random mapping. *)
Definition english_mapped (poem : AssetData) : Prop :=
  truthy (title poem) = true /\ truthy (author poem) = true
  /\ language poem = Some english /\ source poem = Some "PoetryDB".


(** ** The PoetryDB clients, on a given entry *)

(** The entry [poems[Math.floor(Math.random() * poems.length)]]. *)
Definition selected (w : World) (items : list value) : value :=
  default VUndefined
    (items !! Math_floor_times (entropy w (draws w) mod 2 ^ 53)
                               (List.length items)).

(** The record the by-author client builds from an entry, given the
    escaped author name and the content made of the entry's lines. *)
Definition author_record (encodedAuthor : string) (poem poem_content : value)
  : AssetData :=
  {| title := property poem "title";
     content := poem_content;
     author := property poem "author";
     dynasty := None;
     translation := None;
     source := Some "PoetryDB";
     link := Some ("https://poetrydb.org/author/" ++ encodedAuthor
                   ++ "/title,author,lines");
     language := Some english |}.

(** The record the by-line-count client builds from an entry. *)
Definition linecount_record (lineCount : number) (poem poem_content : value)
  : AssetData :=
  {| title := property poem "title";
     content := poem_content;
     author := property poem "author";
     dynasty := None;
     translation := None;
     source := Some "PoetryDB";
     link := Some ("https://poetrydb.org/linecount/"
                   ++ number_toString lineCount);
     language := Some english |}.

(** The record the English random client builds from an entry, given its
    content and its escaped title. *)
Definition english_record (poem poem_content : value) (encodedTitle : string)
  : AssetData :=
  {| title := or_else (property poem "title") (VStr "Untitled");
     content := poem_content;
     author := or_else (property poem "author") (VStr "Unknown");
     dynasty := None;
     translation := None;
     source := Some "PoetryDB";
     link := Some ("https://poetrydb.org/title/" ++ encodedTitle);
     language := Some english |}.

(** The error of a property read on the selected entry, if it is [null] or
    [undefined]. *)
Definition entry_error (poem : value) : option string :=
  match poem with
  | VUndefined =>
      Some "Cannot read properties of undefined (reading 'title')"
  | VNull => Some "Cannot read properties of null (reading 'title')"
  | _ => None
  end.

(** What a list client makes of the entry it selected, before its [catch]
    adds the prefix. *)
Definition list_entry_outcome (record : value -> value -> AssetData)
           (poem : value) : Completion AssetData :=
  match entry_error poem with
  | Some e => Throw e
  | None =>
      match lines_content (property poem "lines") with
      | Throw e => Throw e
      | Return poem_content => Return (record poem poem_content)
      end
  end.

(** What the English random client makes of the first entry. *)
Definition english_entry_outcome (poem : value) : Completion AssetData :=
  match entry_error poem with
  | Some e => Throw e
  | None =>
      match lines_content (property poem "lines") with
      | Throw e => Throw e
      | Return poem_content =>
          match toString (property poem "title") with
          | Throw e => Throw e
          | Return title_text =>
              match encodeURIComponent title_text with
              | Throw e => Throw e
              | Return encodedTitle =>
                  Return (english_record poem poem_content encodedTitle)
              end
          end
      end
  end.

Definition add_prefix (prefix : string) (c : Completion AssetData)
  : Completion AssetData :=
  match c with
  | Return a => Return a
  | Throw e => Throw (prefix ++ e)
  end.

(** The messages of the two list clients: what their [catch] makes of a
    cause, and the not-found failure. *)
Definition author_failure (author_name cause : string) : string :=
  "无法获取" ++ author_name ++ "的诗歌数据: " ++ cause.

Definition linecount_failure (lineCount : number) (cause : string) : string :=
  "无法获取" ++ number_toString lineCount ++ "行的诗歌数据: " ++ cause.

Definition author_not_found (author_name : string) : string :=
  "无法获取" ++ author_name ++ "的诗歌数据: "
  ++ "未找到" ++ author_name ++ "的诗歌".

Definition linecount_not_found (lineCount : number) : string :=
  "无法获取" ++ number_toString lineCount ++ "行的诗歌数据: "
  ++ "未找到" ++ number_toString lineCount ++ "行的诗歌".

(** A [catch] that throws anew, with the message rewritten. *)
Definition rethrow {A : Type} (f : string -> string) (c : Completion A)
  : Completion A :=
  match c with
  | Return a => Return a
  | Throw e => Throw (f e)
  end.

(** ** The draws that select an entry *)

(** The least numerator [r] with [i * 2^53 <= r * len]: the first draw
    whose exact product with the length reaches [i]. *)
Definition exact_first_draw (len i : Z) : Z := (i * 2 ^ 53 + len - 1) / len.

(** [Math.floor(r * len)] for the draw [r / 2^53], as an integer. *)
Definition index_of_draw (len r : Z) : Z := (round53 (r * len) / 2 ^ 53)%Z.

(** The first draw that selects index [i] of [len] entries: the exact one,
    or the draw before it when the rounding of the product carries that
    draw over to [i]. *)
Definition first_draw (len i : Z) : Z :=
  let b := exact_first_draw len i in
  if (0 <? i)%Z && (index_of_draw len (b - 1) =? i)%Z
  then (b - 1)%Z else b.

(** ** The Chinese clients, on a given answer *)

(** The records the Chinese clients build from a payload: the random
    clients leave the dynasty empty, the category clients copy it. *)
Definition chinese_random_record (data : value) : AssetData :=
  {| title := or_else (property data "origin") (VStr "无题");
     content := property data "content";
     author := or_else (property data "author") (VStr "佚名");
     dynasty := Some (VStr "");
     translation := None;
     source := Some "今日诗词 API";
     link := Some "https://www.jinrishici.com/";
     language := Some chinese |}.

Definition chinese_category_record (data : value) : AssetData :=
  {| title := or_else (property data "origin") (VStr "无题");
     content := property data "content";
     author := or_else (property data "author") (VStr "佚名");
     dynasty := Some (or_else (property data "dynasty") (VStr ""));
     translation := None;
     source := Some "今日诗词 API";
     link := Some "https://www.jinrishici.com/";
     language := Some chinese |}.

(** The error of the first property read on a payload, if it is [null] or
    [undefined]. *)
Definition payload_error (data : value) : option string :=
  match data with
  | VUndefined =>
      Some "Cannot read properties of undefined (reading 'origin')"
  | VNull => Some "Cannot read properties of null (reading 'origin')"
  | _ => None
  end.

(** What a Chinese client makes of a settled request, before its [catch]
    adds the prefix: the first argument renders a non-2xx response, the
    second makes the record of a payload. *)
Definition chinese_outcome (http_error : Response -> string)
           (record : value -> Completion AssetData) (s : Settlement)
  : Completion AssetData :=
  match s with
  | Rejects m => Throw m
  | Resolves r =>
      if negb (ok r) then Throw (http_error r)
      else match body r with
           | inl m => Throw m
           | inr data =>
               match payload_error data with
               | Some e => Throw e
               | None => record data
               end
           end
  end.

(** The random record, as the language-routed operation returns it. *)
Definition plain_random_record (data : value) : Completion AssetData :=
  Return (chinese_random_record data).


Definition plain_category_record (data : value) : Completion AssetData :=
  Return (chinese_category_record data).

(** What the English random client makes of a settled request, before its
    [catch] adds the prefix. *)
Definition english_outcome (s : Settlement) : Completion AssetData :=
  match s with
  | Rejects m => Throw m
  | Resolves r =>
      if negb (ok r) then
        Throw ("PoetryDB API请求失败: " ++ Z_toString (status r))
      else match body r with
           | inl m => Throw m
           | inr data =>
               match data with
               | VArr (poem :: _) => english_entry_outcome poem
               | _ => Throw "无效的PoetryDB响应数据"
               end
           end
  end.

(** ** The current index, of what is stored *)

(** What [getCurrentIndex] makes of the value stored under its key. *)
Definition index_of_stored (stored : option value) : Completion number :=
  let index := default VUndefined stored in
  if truthy index then
    match toString index with
    | Return text => Return (parseInt text)
    | Throw e => Throw e
    end
  else Return (Int 0).

(** ** The requests of the facade *)

(** The requests the category operation issues, by preference: one, or
    none when the author name of the by-author route cannot be escaped. *)
Definition category_requests (pref : Language) (category : string)
  : list FetchRequest :=
  match pref with
  | chinese => chinese_category_request category :: nil
  | english =>
      if startsWith category "author/" then
        match encodeURIComponent (String_replace "author/" "" category) with
        | Return encodedAuthor => author_request encodedAuthor :: nil
        | Throw _ => nil
        end
      else if startsWith category "linecount/" then
        linecount_request (parseInt (String_replace "linecount/" "" category))
        :: nil
      else english_random_request :: nil
  end.

(** ** More worlds used in examples *)

(** A network that answers every request with the same JSON payload. *)
Definition answering (pref : option Language) (data : value) : World :=
  {| poemLanguage := pref;
     idb_images := ∅;
     idb_metadata := ∅;
     upstream := fun _ _ => json_response data;
     entropy := fun _ => 0%Z;
     draws := 0;
     requests := nil |}.

(** What PoetryDB sends, with status 200, when a query matches nothing. *)
Definition not_found_payload : value :=
  VObj (("status", VNum (Int 404)) :: ("reason", VStr "Not found") :: nil).

Definition barren_world : World :=
  {| poemLanguage := Some english;
     idb_images := ∅;
     idb_metadata := ∅;
     upstream := fun _ _ => json_response not_found_payload;
     entropy := fun _ => 0%Z;
     draws := 0;
     requests := nil |}.

(** Payloads with fields left out: a Chinese verse without [content], an
    English poem without [title] and [author]. *)
Definition sparse_upstream (_ : nat) (url : string) : Answer :=
  if String.prefix "https://v1.jinrishici.com/" url then
    json_response
      (VObj (("origin", VStr "静夜思") :: ("author", VStr "李白") :: nil))
  else
    json_response
      (VArr (VObj (("lines", VArr (VStr "a" :: VStr "b" :: nil)) :: nil)
             :: nil)).

Definition sparse_world (pref : option Language) : World :=
  {| poemLanguage := pref;
     idb_images := ∅;
     idb_metadata := ∅;
     upstream := sparse_upstream;
     entropy := fun _ => 0%Z;
     draws := 0;
     requests := nil |}.


(** A payload whose content is an object with a [toString] property of its
    own: converting it to a string throws. *)
Definition unprintable_payload : value :=
  VObj (("origin", VStr "静夜思")
        :: ("content", VObj (("toString", VNum (Int 1)) :: nil))
        :: ("author", VStr "李白") :: nil).

Definition demo_chinese_record : AssetData :=
  {| title := VStr "静夜思";
     content := VStr "床前明月光";
     author := VStr "李白";
     dynasty := Some (VStr "");
     translation := None;
     source := Some "今日诗词 API";
     link := Some "https://www.jinrishici.com/";
     language := Some chinese |}.

(** A network that answers every request with 404 and a body that is not
    JSON. *)
Definition barren_404_world : World :=
  {| poemLanguage := None;
     idb_images := ∅;
     idb_metadata := ∅;
     upstream := fun _ _ =>
       mkAnswer 90 (Resolves (mkResponse 404 "Not Found"
                                         (inl "Unexpected token")));
     entropy := fun _ => 0%Z;
     draws := 0;
     requests := nil |}.

(** An author name that is a lone high surrogate (U+D800). *)
Definition lone_surrogate_name : string :=
  String (ascii_of_nat 237) (String (ascii_of_nat 160)
    (String (ascii_of_nat 128) EmptyString)).

(** ** Decimal numerals *)

(** The digits of a decimal numeral, most significant first. *)
Fixpoint uint_digits (d : Decimal.uint) : list Z :=
  match d with
  | Decimal.Nil => nil
  | Decimal.D0 l => 0%Z :: uint_digits l
  | Decimal.D1 l => 1%Z :: uint_digits l
  | Decimal.D2 l => 2%Z :: uint_digits l
  | Decimal.D3 l => 3%Z :: uint_digits l
  | Decimal.D4 l => 4%Z :: uint_digits l
  | Decimal.D5 l => 5%Z :: uint_digits l
  | Decimal.D6 l => 6%Z :: uint_digits l
  | Decimal.D7 l => 7%Z :: uint_digits l
  | Decimal.D8 l => 8%Z :: uint_digits l
  | Decimal.D9 l => 9%Z :: uint_digits l
  end.

(** * Properties *)

(** ** Strings *)

Lemma append_cons (c : ascii) (s t : string) :
  String c s ++ t = String c (s ++ t).
Proof. reflexivity. Qed.

Lemma prefix_append (p s : string) : String.prefix p (p ++ s) = true.
Proof.
  induction p as [|c p IH].
  - destruct s; reflexivity.
  - rewrite append_cons. cbn [String.prefix].
    destruct (ascii_dec c c) as [_|Hc]; [exact IH | congruence].
Qed.

Lemma drop_chars_append (p s : string) :
  drop_chars (String.length p) (p ++ s) = s.
Proof.
  induction p as [|c p IH]; [reflexivity|].
  rewrite append_cons. cbn [String.length drop_chars]. exact IH.
Qed.

Lemma String_replace_eq (pat repl s : string) :
  String_replace pat repl s =
  if String.prefix pat s then repl ++ drop_chars (String.length pat) s
  else match s with
       | EmptyString => EmptyString
       | String c rest => String c (String_replace pat repl rest)
       end.
Proof. destruct s; reflexivity. Qed.

(** Removing a prefix that is there leaves the rest. *)
Lemma String_replace_prefix (p s : string) :
  String_replace p "" (p ++ s) = s.
Proof.
  rewrite String_replace_eq, prefix_append, drop_chars_append. reflexivity.
Qed.

Lemma prefix_inv (p s : string) :
  String.prefix p s = true -> s = p ++ drop_chars (String.length p) s.
Proof.
  revert s. induction p as [|c p IH]; intros s H; [reflexivity|].
  destruct s as [|d s]; [discriminate|].
  cbn [String.prefix] in H. destruct (ascii_dec c d) as [->|]; [|discriminate].
  rewrite append_cons. cbn [String.length drop_chars]. f_equal. now apply IH.
Qed.

Lemma append_inj_l (p s t : string) : p ++ s = p ++ t -> s = t.
Proof.
  induction p as [|c p IH]; [trivial|].
  rewrite !append_cons. intros H. injection H as H. now apply IH.
Qed.

(** ** Platform functions on examples *)

Example parseInt_14 : parseInt "14" = Int 14.
Proof. reflexivity. Qed.

Example parseInt_prefix : parseInt "  -12abc" = Int (-12).
Proof. reflexivity. Qed.

Example parseInt_hex : parseInt "0x1F" = Int 31.
Proof. reflexivity. Qed.

Example parseInt_words : parseInt "ten" = NaN.
Proof. reflexivity. Qed.

Example parseInt_empty : parseInt "" = NaN.
Proof. reflexivity. Qed.

Example parseInt_rounds : parseInt "9007199254740993" = Int 9007199254740992.
Proof. vm_compute. reflexivity. Qed.

Example parseInt_exponent : parseInt "1e21" = Int 1.
Proof. vm_compute. reflexivity. Qed.

Example number_toString_2_60 :
  number_toString (Int (2 ^ 60)) = "1152921504606847000".
Proof. vm_compute. reflexivity. Qed.

Example number_toString_1e21 : number_toString (Int (10 ^ 21)) = "1e+21".
Proof. vm_compute. reflexivity. Qed.

Example number_toString_2_70 :
  number_toString (Int (2 ^ 70)) = "1.1805916207174113e+21".
Proof. vm_compute. reflexivity. Qed.

Example encode_author :
  encodeURIComponent "Emily Dickinson" = Return "Emily%20Dickinson".
Proof. reflexivity. Qed.

Example encode_lone_surrogate :
  encodeURIComponent lone_surrogate_name = Throw "URI malformed".
Proof. reflexivity. Qed.

Example replace_author :
  String_replace "author/" "" "author/Emily Dickinson" = "Emily Dickinson".
Proof. reflexivity. Qed.

Example join_lines :
  Array_join LF (VStr "a" :: VNull :: VNum (Int 3) :: nil)
  = Return ("a" ++ LF ++ "" ++ LF ++ "3").
Proof. reflexivity. Qed.

Example join_unprintable :
  Array_join LF (VStr "a" :: VObj (("toString", VNum (Int 1)) :: nil) :: nil)
  = Throw "Cannot convert object to primitive value".
Proof. reflexivity. Qed.

Example floor_of_rounded_product :
  Math_floor_times 5146971002709138 7 = 4
  /\ (5146971002709138 * 7 / 2 ^ 53 = 3)%Z.
Proof. split; vm_compute; reflexivity. Qed.

(** ** Rounding to a double *)

Lemma round53_small (n : Z) : (n < 2 ^ 53)%Z -> round53 n = n.
Proof.
  intros H. unfold round53. apply Z.ltb_lt in H. now rewrite H.
Qed.

(** The exponent of a number of more than 53 bits. *)
Lemma round53_exponent (n : Z) :
  (2 ^ 53 <= n)%Z ->
  (1 <= Z.log2 n - 52
   /\ 2 ^ (Z.log2 n - 52) * 2 ^ 52 <= n < 2 ^ (Z.log2 n - 52) * 2 ^ 53)%Z.
Proof.
  intros H.
  assert (Hpos : (0 < n)%Z) by lia.
  assert (Hlog : (53 <= Z.log2 n)%Z).
  { change 53%Z with (Z.log2 (2 ^ 53)). now apply Z.log2_le_mono. }
  destruct (Z.log2_spec n Hpos) as [Hlo Hhi].
  split; [lia|].
  replace (2 ^ (Z.log2 n - 52) * 2 ^ 52)%Z with (2 ^ Z.log2 n)%Z
    by (rewrite <- Z.pow_add_r by lia; f_equal; lia).
  replace (2 ^ (Z.log2 n - 52) * 2 ^ 53)%Z with (2 ^ Z.succ (Z.log2 n))%Z
    by (rewrite <- Z.pow_add_r by lia; f_equal; lia).
  split; assumption.
Qed.

(** What rounding does to a number of more than 53 bits: with [P] the
    weight of its last kept bit, the result is one of the two multiples of
    [P] around it, at most [P / 2] away. *)
Lemma round53_large (n : Z) :
  (2 ^ 53 <= n)%Z ->
  exists h q : Z,
    (1 <= h /\ 2 * h = 2 ^ (Z.log2 n - 52) /\ 2 * h * 2 ^ 52 <= n
     /\ q * (2 * h) <= n < (q + 1) * (2 * h)
     /\ (round53 n = q * (2 * h)
         \/ (round53 n = (q + 1) * (2 * h) /\ n + h >= (q + 1) * (2 * h))))%Z.
Proof.
  intros H. destruct (round53_exponent n H) as (He & Hlo & Hhi).
  set (e := (Z.log2 n - 52)%Z) in *.
  assert (Hh : (2 * 2 ^ (e - 1) = 2 ^ e)%Z).
  { replace e with (Z.succ (e - 1)) at 2 by lia.
    rewrite Z.pow_succ_r by lia. reflexivity. }
  assert (Hhpos : (1 <= 2 ^ (e - 1))%Z).
  { pose proof (Z.pow_pos_nonneg 2 (e - 1)). lia. }
  exists (2 ^ (e - 1))%Z, (n / 2 ^ e)%Z.
  rewrite Hh.
  assert (HP : (0 < 2 ^ e)%Z) by lia.
  pose proof (Z.div_mod n (2 ^ e) ltac:(lia)) as Hdm.
  pose proof (Z.mod_pos_bound n (2 ^ e) HP) as Hmod.
  split; [exact Hhpos|]. split; [reflexivity|]. split; [exact Hlo|].
  split; [nia|].
  unfold round53. fold e.
  replace (n <? 2 ^ 53)%Z with false by (symmetry; apply Z.ltb_ge; lia).
  cbv zeta.
  destruct ((2 ^ (e - 1) <? n mod 2 ^ e)%Z
            || (n mod 2 ^ e =? 2 ^ (e - 1))%Z && Z.odd (n / 2 ^ e)) eqn:Hup.
  - right. split; [reflexivity|].
    apply orb_true_iff in Hup. destruct Hup as [Hup|Hup].
    + apply Z.ltb_lt in Hup. nia.
    + apply andb_true_iff in Hup. destruct Hup as [Hup _].
      apply Z.eqb_eq in Hup. nia.
  - left. reflexivity.
Qed.

(** Rounding never passes a multiple of 2^53 (which is a double), in either
    direction, for numbers below 2^106. *)
Lemma round53_above (n i : Z) :
  (0 <= n < 2 ^ 106)%Z -> (i * 2 ^ 53 <= n)%Z -> (i * 2 ^ 53 <= round53 n)%Z.
Proof.
  intros Hn Hi.
  destruct (Z.lt_ge_cases n (2 ^ 53)) as [Hs|Hl];
    [now rewrite round53_small|].
  destruct (round53_large n Hl) as (h & q & Hh & HP & Hlo & Hq & Hr).
  assert (He : (1 <= Z.log2 n - 52 <= 53)%Z).
  { assert (Z.log2 n < 106)%Z by (apply Z.log2_lt_pow2; lia).
    pose proof (round53_exponent n Hl). lia. }
  assert (HK : (2 ^ (53 - (Z.log2 n - 52)) * (2 * h) = 2 ^ 53)%Z).
  { rewrite HP, <- Z.pow_add_r by lia. f_equal. lia. }
  set (K := (2 ^ (53 - (Z.log2 n - 52)))%Z) in *.
  assert (HKpos : (0 < K)%Z) by (apply Z.pow_pos_nonneg; lia).
  assert (Hq' : (i * K <= q)%Z) by nia.
  destruct Hr as [-> | [-> _]]; nia.
Qed.

Lemma round53_below (n i : Z) :
  (0 <= n < 2 ^ 106)%Z -> (n <= i * 2 ^ 53)%Z -> (round53 n <= i * 2 ^ 53)%Z.
Proof.
  intros Hn Hi.
  destruct (Z.lt_ge_cases n (2 ^ 53)) as [Hs|Hl];
    [now rewrite round53_small|].
  destruct (round53_large n Hl) as (h & q & Hh & HP & Hlo & Hq & Hr).
  assert (He : (1 <= Z.log2 n - 52 <= 53)%Z).
  { assert (Z.log2 n < 106)%Z by (apply Z.log2_lt_pow2; lia).
    pose proof (round53_exponent n Hl). lia. }
  assert (HK : (2 ^ (53 - (Z.log2 n - 52)) * (2 * h) = 2 ^ 53)%Z).
  { rewrite HP, <- Z.pow_add_r by lia. f_equal. lia. }
  set (K := (2 ^ (53 - (Z.log2 n - 52)))%Z) in *.
  assert (HKpos : (0 < K)%Z) by (apply Z.pow_pos_nonneg; lia).
  destruct Hr as [-> | [-> Hup]]; [nia|].
  assert (Hq' : (q < i * K)%Z) by nia.
  nia.
Qed.

(** The product of a draw and a length rounds up by less than the
    length. *)
Lemma round53_product (r L : Z) :
  (0 <= r < 2 ^ 53)%Z -> (0 < L)%Z -> (round53 (r * L) < r * L + L)%Z.
Proof.
  intros Hr HL.
  destruct (Z.lt_ge_cases (r * L) (2 ^ 53)) as [Hs|Hl];
    [rewrite round53_small; lia|].
  destruct (round53_large (r * L) Hl) as (h & q & Hh & HP & Hlo & Hq & Hup).
  assert (Hhl : (h < L)%Z) by nia.
  destruct Hup as [-> | [-> Hup]]; nia.
Qed.

Lemma round53_nonneg (n : Z) : (0 <= n)%Z -> (0 <= round53 n)%Z.
Proof.
  intros Hn.
  destruct (Z.lt_ge_cases n (2 ^ 53)) as [Hs|Hl];
    [now rewrite round53_small|].
  destruct (round53_large n Hl) as (h & q & Hh & HP & Hlo & Hq & Hr).
  destruct Hr as [-> | [-> _]]; nia.
Qed.

(** ** The index drawn *)

Lemma Math_floor_times_eq (r : Z) (len : nat) :
  (0 <= r)%Z ->
  Z.of_nat (Math_floor_times r len)
  = (round53 (r * Z.of_nat len) / 2 ^ 53)%Z.
Proof.
  intros Hr. unfold Math_floor_times. apply Z2Nat.id.
  apply Z.div_pos; [|lia]. apply round53_nonneg. nia.
Qed.

(** The index drawn is within the array. *)
Lemma Math_floor_times_lt (r : Z) (len : nat) :
  (0 <= r < 2 ^ 53)%Z -> (0 < len)%nat ->
  (Math_floor_times r len < len)%nat.
Proof.
  intros Hr Hlen.
  assert (H : (Z.of_nat (Math_floor_times r len) < Z.of_nat len)%Z); [|lia].
  rewrite Math_floor_times_eq by lia.
  pose proof (round53_product r (Z.of_nat len) Hr ltac:(lia)) as Hp.
  apply Z.div_lt_upper_bound; [lia | nia].
Qed.

Lemma draw_in_range (w : World) :
  (0 <= entropy w (draws w) mod 2 ^ 53 < 2 ^ 53)%Z.
Proof. apply Z.mod_pos_bound. lia. Qed.

Lemma exact_first_draw_spec (L i r : Z) :
  (0 < L)%Z -> (exact_first_draw L i <= r <-> i * 2 ^ 53 <= r * L)%Z.
Proof.
  intros HL. unfold exact_first_draw.
  pose proof (Z.div_mod (i * 2 ^ 53 + L - 1) L ltac:(lia)) as Hdm.
  pose proof (Z.mod_pos_bound (i * 2 ^ 53 + L - 1) L HL) as Hmod.
  split; intros H.
  - nia.
  - assert ((i * 2 ^ 53 + L - 1) / L < r + 1)%Z; [|lia].
    apply Z.div_lt_upper_bound; [lia | nia].
Qed.

Section DrawIntervals.
Variables L : Z.
Hypothesis HL : (0 < L <= 2 ^ 53)%Z.

Lemma product_bound (r : Z) :
  (0 <= r < 2 ^ 53)%Z -> (0 <= r * L < 2 ^ 106)%Z.
Proof.
  intros Hr. change (2 ^ 106)%Z with (2 ^ 53 * 2 ^ 53)%Z. nia.
Qed.

Lemma index_at_least (r i : Z) :
  (0 <= r < 2 ^ 53)%Z -> (i * 2 ^ 53 <= r * L)%Z -> (i <= index_of_draw L r)%Z.
Proof.
  intros Hr Hi. unfold index_of_draw. apply Z.div_le_lower_bound; [lia|].
  pose proof (round53_above (r * L) i (product_bound r Hr) Hi). lia.
Qed.

Lemma index_at_most (r i : Z) :
  (0 <= r < 2 ^ 53)%Z -> (r * L < (i + 1) * 2 ^ 53)%Z -> (index_of_draw L r <= i + 1)%Z.
Proof.
  intros Hr Hi. unfold index_of_draw. apply Z.div_le_upper_bound; [lia|].
  pose proof (round53_below (r * L) (i + 1) (product_bound r Hr)
                ltac:(lia)). lia.
Qed.

(** Only the last draw before a boundary can be carried over it. *)
Lemma index_below (r i : Z) :
  (0 <= r < 2 ^ 53)%Z -> (r * L + L <= i * 2 ^ 53)%Z -> (index_of_draw L r < i)%Z.
Proof.
  intros Hr Hi. unfold index_of_draw. apply Z.div_lt_upper_bound; [lia|].
  pose proof (round53_product r L Hr ltac:(lia)). lia.
Qed.

Lemma first_draw_cases (i : Z) :
  (first_draw L i = exact_first_draw L i
   \/ (first_draw L i = exact_first_draw L i - 1 /\ 0 < i
       /\ index_of_draw L (exact_first_draw L i - 1) = i))%Z.
Proof.
  unfold first_draw. cbv zeta.
  destruct ((0 <? i)%Z && (index_of_draw L (exact_first_draw L i - 1) =? i)%Z)
    eqn:E; [right|left; reflexivity].
  apply andb_true_iff in E. destruct E as [E1 E2].
  apply Z.ltb_lt in E1. apply Z.eqb_eq in E2. auto.
Qed.

Lemma first_draw_carried (i : Z) :
  (0 < i)%Z -> index_of_draw L (exact_first_draw L i - 1) = i ->
  first_draw L i = (exact_first_draw L i - 1)%Z.
Proof.
  intros Hi HF. unfold first_draw. cbv zeta.
  apply Z.ltb_lt in Hi. apply Z.eqb_eq in HF. now rewrite Hi, HF.
Qed.

(** The draws that select index [i] are those from the first draw of [i]
    up to the first draw of [i + 1]. *)
Lemma index_interval (i r : Z) :
  (0 <= i)%Z -> (0 <= r < 2 ^ 53)%Z ->
  index_of_draw L r = i <-> (first_draw L i <= r < first_draw L (i + 1))%Z.
Proof.
  intros Hi Hr.
  pose proof (exact_first_draw_spec L i r ltac:(lia)) as Sr.
  pose proof (exact_first_draw_spec L i (r + 1) ltac:(lia)) as Sr1.
  pose proof (exact_first_draw_spec L (i + 1) r ltac:(lia)) as Tr.
  pose proof (exact_first_draw_spec L (i + 1) (r + 1) ltac:(lia)) as Tr1.
  split.
  - intros HF. split.
    + destruct (Z.le_gt_cases (exact_first_draw L i) r) as [Hb|Hb].
      * destruct (first_draw_cases i) as [-> | [-> _]]; lia.
      * (* the draw was carried over the boundary: it is the last one *)
        assert (Hlast : (exact_first_draw L i <= r + 1)%Z).
        { apply Sr1. apply Z.nlt_ge. intros Hlt.
          pose proof (index_below r i Hr ltac:(lia)). lia. }
        assert (E : r = (exact_first_draw L i - 1)%Z) by lia.
        assert (Hpos : (0 < i)%Z).
        { destruct (Z.eq_dec i 0%Z) as [E0|]; [|lia]. exfalso.
          assert (H0 : (i * 2 ^ 53 <= r * L)%Z) by (rewrite E0; nia).
          apply Sr in H0. lia. }
        rewrite first_draw_carried; [lia|exact Hpos|].
        now rewrite <- E.
    + assert (Hb : (r < exact_first_draw L (i + 1))%Z).
      { apply Z.nle_gt. intros Hle. apply Tr in Hle.
        pose proof (index_at_least r (i + 1) Hr Hle). lia. }
      destruct (first_draw_cases (i + 1)) as [-> | (-> & _ & HF')];
        [exact Hb|].
      destruct (Z.eq_dec r (exact_first_draw L (i + 1) - 1)%Z) as [E|]; [|lia].
      rewrite <- E in HF'. lia.
  - intros [Hlo Hhi].
    assert (Hb : (r < exact_first_draw L (i + 1))%Z).
    { destruct (first_draw_cases (i + 1)) as [E | [E _]]; lia. }
    assert (Hprod : (r * L < (i + 1) * 2 ^ 53)%Z).
    { apply Z.nle_gt. intros Hle. apply Tr in Hle. lia. }
    pose proof (index_at_most r i Hr Hprod) as Hmost.
    assert (Hle : (index_of_draw L r <= i)%Z).
    { destruct (Z.eq_dec (index_of_draw L r) (i + 1)%Z) as [E|]; [|lia]. exfalso.
      assert (Hlast : (exact_first_draw L (i + 1) <= r + 1)%Z).
      { apply Tr1. apply Z.nlt_ge. intros Hlt.
        pose proof (index_below r (i + 1) Hr ltac:(lia)). lia. }
      assert (E' : r = (exact_first_draw L (i + 1) - 1)%Z) by lia.
      rewrite first_draw_carried in Hhi; [lia|lia|]. now rewrite <- E'. }
    destruct (Z.le_gt_cases (exact_first_draw L i) r) as [Hge|Hlt].
    + apply Sr in Hge. pose proof (index_at_least r i Hr Hge). lia.
    + destruct (first_draw_cases i) as [E | (E & _ & HF')]; [lia|].
      assert (E' : r = (exact_first_draw L i - 1)%Z) by lia.
      now rewrite E'.
Qed.

(** The exact first draws are 2^53 / L apart, rounded down or up. *)
Lemma exact_first_draw_spacing (i : Z) :
  (0 <= i)%Z ->
  (2 ^ 53 / L
   <= exact_first_draw L (i + 1) - exact_first_draw L i
   <= 2 ^ 53 / L + 1)%Z.
Proof.
  intros Hi. unfold exact_first_draw.
  set (y := (i * 2 ^ 53 + L - 1)%Z).
  replace ((i + 1) * 2 ^ 53 + L - 1)%Z with (y + 2 ^ 53)%Z by (unfold y; lia).
  pose proof (Z.div_mod (2 ^ 53) L ltac:(lia)) as Hn.
  pose proof (Z.mod_pos_bound (2 ^ 53) L ltac:(lia)) as Hm.
  pose proof (Z.div_mod y L ltac:(lia)) as Hy.
  pose proof (Z.mod_pos_bound y L ltac:(lia)) as Hym.
  pose proof (Z.div_mod (y + 2 ^ 53) L ltac:(lia)) as Hz.
  pose proof (Z.mod_pos_bound (y + 2 ^ 53) L ltac:(lia)) as Hzm.
  set (k := (2 ^ 53 / L)%Z) in *. set (a := (y / L)%Z) in *.
  set (c := ((y + 2 ^ 53) / L)%Z) in *.
  split; nia.
Qed.

(** So every index is selected by about as many draws as any other. *)
Lemma first_draw_spacing (i : Z) :
  (0 <= i)%Z ->
  (2 ^ 53 / L - 1 <= first_draw L (i + 1) - first_draw L i
   <= 2 ^ 53 / L + 2)%Z.
Proof.
  intros Hi. pose proof (exact_first_draw_spacing i Hi) as Hs.
  destruct (first_draw_cases i) as [E | [E _]],
           (first_draw_cases (i + 1)) as [E' | [E' _]]; lia.
Qed.

Lemma first_draw_0 : first_draw L 0 = 0%Z.
Proof.
  unfold first_draw, exact_first_draw. cbn [Z.ltb Z.compare andb].
  cbv zeta. apply Z.div_small. lia.
Qed.

Lemma first_draw_last : first_draw L L = (2 ^ 53)%Z.
Proof.
  assert (Hb : exact_first_draw L L = (2 ^ 53)%Z).
  { unfold exact_first_draw.
    replace (L * 2 ^ 53 + L - 1)%Z with (2 ^ 53 * L + (L - 1))%Z by lia.
    rewrite Z.div_add_l by lia. rewrite (Z.div_small (L - 1) L) by lia.
    lia. }
  destruct (first_draw_cases L) as [E | (_ & _ & HF)]; [congruence|].
  exfalso. rewrite Hb in HF.
  pose proof (index_below (2 ^ 53 - 1) L ltac:(lia) ltac:(lia)). lia.
Qed.
End DrawIntervals.

Lemma Math_floor_times_index (r : Z) (len : nat) :
  (0 <= r)%Z ->
  Z.of_nat (Math_floor_times r len) = index_of_draw (Z.of_nat len) r.
Proof. apply Math_floor_times_eq. Qed.

(** The draws that select index [i] of [len] entries form the interval
    from [first_draw len i] up to [first_draw len (i + 1)]. *)
Lemma Math_floor_times_interval (len i : nat) (r : Z) :
  (0 < len)%nat -> (Z.of_nat len <= 2 ^ 53)%Z -> (0 <= r < 2 ^ 53)%Z ->
  Math_floor_times r len = i
  <-> (first_draw (Z.of_nat len) (Z.of_nat i) <= r
       < first_draw (Z.of_nat len) (Z.of_nat (S i)))%Z.
Proof.
  intros Hlen Hmax Hr.
  rewrite Nat2Z.inj_succ, <- Z.add_1_r.
  rewrite <- (index_interval (Z.of_nat len) ltac:(lia) (Z.of_nat i) r
                ltac:(lia) Hr).
  rewrite <- Math_floor_times_index by lia. lia.
Qed.

(** ** Rules for effects and results *)

Section EffectRules.
Context {A B : Type}.

Lemma issues_ret (a : A) : issues nil (ret a).
Proof. intros w. cbn. now rewrite app_nil_r. Qed.

Lemma issues_throw (e : string) : issues nil (@throw A e).
Proof. intros w. cbn. now rewrite app_nil_r. Qed.

Lemma issues_bind (rs1 rs2 : list FetchRequest) (m : Async A)
      (k : A -> Async B) :
  issues rs1 m -> (forall a, issues rs2 (k a)) ->
  (forall e, rs2 = nil \/ forall w, fst (m w) <> Throw e) ->
  issues (rs1 ++ rs2) (bind m k).
Proof.
  intros Hm Hk Hthrow w. unfold bind.
  specialize (Hm w). destruct (m w) as [[a|e] w'] eqn:E; cbn [snd] in *.
  - rewrite Hk, Hm. now rewrite app_assoc.
  - destruct (Hthrow e) as [->|Hno].
    + now rewrite app_nil_r.
    + exfalso. apply (Hno w). now rewrite E.
Qed.

(** A computation that issues nothing, then one that issues [rs]. *)
Lemma issues_bind_quiet (rs : list FetchRequest) (m : Async A)
      (k : A -> Async B) :
  issues nil m -> (forall w e, fst (m w) <> Throw e) ->
  (forall a, issues rs (k a)) -> issues rs (bind m k).
Proof.
  intros Hm Hno Hk.
  apply (issues_bind nil rs m k Hm Hk). intros e. right. intros w.
  apply Hno.
Qed.

(** A computation that issues [rs], then one that issues nothing. *)
Lemma issues_bind_then_quiet (rs : list FetchRequest) (m : Async A)
      (k : A -> Async B) :
  issues rs m -> (forall a, issues nil (k a)) -> issues rs (bind m k).
Proof.
  intros Hm Hk. rewrite <- (app_nil_r rs).
  apply issues_bind; auto.
Qed.

Lemma issues_try_catch (rs : list FetchRequest) (body : Async A)
      (handler : string -> Async A) :
  issues rs body -> (forall e, issues nil (handler e)) ->
  issues rs (try_catch body handler).
Proof.
  intros Hb Hh w. unfold try_catch. specialize (Hb w).
  destruct (body w) as [[a|e] w']; cbn [snd] in *; [exact Hb|].
  rewrite Hh, Hb. now rewrite app_nil_r.
Qed.

Lemma preserves_ret (a : A) : preserves (ret a).
Proof. intros w. reflexivity. Qed.

Lemma preserves_throw (e : string) : preserves (@throw A e).
Proof. intros w. reflexivity. Qed.

Lemma preserves_bind (m : Async A) (k : A -> Async B) :
  preserves m -> (forall a, preserves (k a)) -> preserves (bind m k).
Proof.
  intros Hm Hk w. unfold bind. specialize (Hm w).
  destruct (m w) as [[a|e] w']; cbn [snd] in *; [|exact Hm].
  now rewrite Hk.
Qed.

Lemma preserves_try_catch (body : Async A) (handler : string -> Async A) :
  preserves body -> (forall e, preserves (handler e)) ->
  preserves (try_catch body handler).
Proof.
  intros Hb Hh w. unfold try_catch. specialize (Hb w).
  destruct (body w) as [[a|e] w']; cbn [snd] in *; [exact Hb|].
  now rewrite Hh.
Qed.

Lemma ensures_ret (P : A -> Prop) (a : A) : P a -> ensures P (ret a).
Proof. intros H w a' E. injection E as <-. exact H. Qed.

Lemma ensures_throw (P : A -> Prop) (e : string) : ensures P (@throw A e).
Proof. intros w a E. discriminate E. Qed.

Lemma ensures_bind (P : B -> Prop) (m : Async A) (k : A -> Async B) :
  (forall a, ensures P (k a)) -> ensures P (bind m k).
Proof.
  intros Hk w b. unfold bind.
  destruct (m w) as [[a|e] w']; [apply Hk | discriminate].
Qed.

Lemma ensures_try_catch (P : A -> Prop) (body : Async A)
      (handler : string -> Async A) :
  ensures P body -> (forall e, ensures P (handler e)) ->
  ensures P (try_catch body handler).
Proof.
  intros Hb Hh w a. unfold try_catch. specialize (Hb w).
  destruct (body w) as [[a'|e] w'] eqn:E; cbn [fst] in *.
  - intros H. apply Hb. exact H.
  - apply Hh.
Qed.
End EffectRules.

(** The platform primitives. *)

Lemma issues_fetch (url : string) (abort_after : option nat) :
  issues (mkFetchRequest url abort_after :: nil) (fetch url abort_after).
Proof.
  intros w. unfold fetch.
  destruct abort_after as [t|];
    [destruct (t <? latency _)%nat|];
    try destruct (settlement _); reflexivity.
Qed.

Lemma issues_Response_json (r : Response) : issues nil (Response_json r).
Proof.
  unfold Response_json. destruct (body r); [apply issues_throw|apply issues_ret].
Qed.

Lemma issues_member (v : value) (name : string) : issues nil (member v name).
Proof.
  destruct v; first [apply issues_throw | apply issues_ret].
Qed.

Lemma issues_Math_random : issues nil Math_random.
Proof. intros w. cbn. now rewrite app_nil_r. Qed.

Lemma Math_random_returns (w : World) (e : string) :
  fst (Math_random w) <> Throw e.
Proof. discriminate. Qed.

Lemma issues_poemLanguageStorage_get : issues nil poemLanguageStorage_get.
Proof. intros w. cbn. now rewrite app_nil_r. Qed.

Lemma poemLanguageStorage_get_returns (w : World) (e : string) :
  fst (poemLanguageStorage_get w) <> Throw e.
Proof. discriminate. Qed.

Lemma issues_lift {A : Type} (c : Completion A) : issues nil (lift c).
Proof. intros w. cbn. now rewrite app_nil_r. Qed.

Lemma preserves_lift {A : Type} (c : Completion A) : preserves (lift c).
Proof. intros w. reflexivity. Qed.

Lemma preserves_fetch (url : string) (abort_after : option nat) :
  preserves (fetch url abort_after).
Proof.
  intros w. unfold fetch.
  destruct abort_after as [t|];
    [destruct (t <? latency _)%nat|];
    try destruct (settlement _); reflexivity.
Qed.

Lemma preserves_Response_json (r : Response) : preserves (Response_json r).
Proof.
  unfold Response_json.
  destruct (body r); [apply preserves_throw|apply preserves_ret].
Qed.

Lemma preserves_member (v : value) (name : string) :
  preserves (member v name).
Proof.
  destruct v; first [apply preserves_throw | apply preserves_ret].
Qed.

Lemma preserves_Math_random : preserves Math_random.
Proof. intros w. reflexivity. Qed.

Lemma preserves_poemLanguageStorage_get : preserves poemLanguageStorage_get.
Proof. intros w. reflexivity. Qed.

Lemma preserves_dbRead (storeName : StoreName) (key : string) :
  preserves (dbRead storeName key).
Proof. intros w. reflexivity. Qed.

(** Writes, by contrast, are seen by [persisted]. *)
Lemma dbWrite_not_preserved (w : World) :
  idb_metadata w !! STORAGE_KEYS_currentIndex = None ->
  persisted (snd (dbWrite metadata STORAGE_KEYS_currentIndex (VStr "3") w))
  <> persisted w.
Proof.
  intros Hnone E. unfold persisted, dbWrite in E. cbn in E.
  injection E as E. 
  assert (H : (<[STORAGE_KEYS_currentIndex := VStr "3"]> (idb_metadata w))
              !! STORAGE_KEYS_currentIndex = Some (VStr "3"))
    by apply lookup_insert_eq.
  rewrite E, Hnone in H. discriminate.
Qed.

Create HintDb effects.

#[local] Hint Resolve issues_ret issues_throw issues_fetch issues_Response_json
  issues_member issues_Math_random issues_poemLanguageStorage_get
  issues_lift preserves_lift
  preserves_ret preserves_throw preserves_fetch preserves_Response_json
  preserves_member preserves_Math_random preserves_poemLanguageStorage_get
  preserves_dbRead ensures_throw Math_random_returns
  poemLanguageStorage_get_returns : effects.

(** One step through the body of an operation. *)
Ltac effect_step :=
  match goal with
  | |- issues _ (try_catch _ _) => apply issues_try_catch; [|intros ?]
  | |- issues nil (bind _ _) =>
      apply issues_bind_then_quiet; [auto with effects|intros ?]
  | |- issues _ (bind (fetch _ _) _) =>
      apply issues_bind_then_quiet; [apply issues_fetch|intros ?]
  | |- issues _ (bind _ _) =>
      apply issues_bind_quiet; [auto with effects|auto with effects|intros ?]
  | |- preserves (try_catch _ _) => apply preserves_try_catch; [|intros ?]
  | |- preserves (bind _ _) =>
      apply preserves_bind; [auto with effects|intros ?]
  | |- ensures _ (try_catch _ _) => apply ensures_try_catch; [|intros ?]
  | |- ensures _ (bind _ _) => apply ensures_bind; intros ?
  | |- ensures _ (ret _) => apply ensures_ret
  | |- _ (if ?b then _ else _) => destruct b eqn:?
  | |- _ (match ?x with _ => _ end) => destruct x eqn:?
  | |- _ => solve [auto with effects]
  end.

Ltac effects := cbv zeta; repeat effect_step.

Ltac conjuncts := repeat match goal with |- _ /\ _ => split end.
(** ** The local sample set and [getPoem] *)

Lemma SAMPLE_POEMS_length : List.length SAMPLE_POEMS = 5.
Proof. reflexivity. Qed.

(** No local sample carries a language tag. *)
Lemma SAMPLE_POEMS_untagged (poem : AssetData) :
  In poem SAMPLE_POEMS -> language poem = None.
Proof.
  cbn [SAMPLE_POEMS In]. intros H.
  repeat (destruct H as [<-|H]; [reflexivity|]). contradiction.
Qed.

(** Up to 2^53 in magnitude a number renders as its decimal numeral. *)
Lemma number_toString_safe (z : Z) :
  (- 2 ^ 53 < z < 2 ^ 53)%Z -> number_toString (Int z) = Z_toString z.
Proof.
  intros Hz. unfold number_toString, positive_toString.
  destruct (Z.ltb_spec z 0) as [Hneg|Hpos].
  - replace (- z <? 2 ^ 53)%Z with true by (symmetry; apply Z.ltb_lt; lia).
    destruct z as [|p|p]; try lia. reflexivity.
  - replace (z <? 2 ^ 53)%Z with true by (symmetry; apply Z.ltb_lt; lia).
    reflexivity.
Qed.

(** C4: for an integer index other than -1, [getPoem] returns the local
    sample at that position, leaving the world (and so the request log)
    as it was, when the index is within the sample set, and otherwise
    throws the invalid-index error carrying the index as JavaScript
    renders it: in decimal for every index below 2^53 in magnitude. *)
Theorem C4_getPoem_index (index : Z) (w : World) (Hindex : index <> (-1)%Z) :
  ((0 <= index < Z.of_nat (List.length SAMPLE_POEMS))%Z ->
   exists poem, SAMPLE_POEMS !! Z.to_nat index = Some poem
                /\ getPoem index w = (Return poem, w))
  /\ (~ (0 <= index < Z.of_nat (List.length SAMPLE_POEMS))%Z ->
      exists rendering,
        getPoem index w = (Throw ("无效的诗词索引: " ++ rendering), w)
        /\ ((- 2 ^ 53 < index < 2 ^ 53)%Z -> rendering = Z_toString index)).
Proof.
  unfold getPoem.
  destruct (Z.eqb_spec index (-1)) as [|_]; [contradiction|].
  split; intros Hrange.
  - destruct (lookup_lt_is_Some_2 SAMPLE_POEMS (Z.to_nat index)) as [poem Hp];
      [lia|].
    exists poem. split; [exact Hp|].
    replace ((0 <=? index)%Z && (index <? Z.of_nat (List.length SAMPLE_POEMS))%Z)
      with true by (symmetry; apply andb_true_iff; lia).
    rewrite Hp. reflexivity.
  - replace ((0 <=? index)%Z && (index <? Z.of_nat (List.length SAMPLE_POEMS))%Z)
      with false by (symmetry; apply andb_false_iff; lia).
    exists (number_toString (Int index)). split; [reflexivity|].
    apply number_toString_safe.
Qed.

Lemma C4_getPoem_index_witness :
  (exists poem, SAMPLE_POEMS !! 2 = Some poem
                /\ getPoem 2 (demo_world None) = (Return poem, demo_world None))
  /\ (exists rendering,
        getPoem 5 (demo_world None)
        = (Throw ("无效的诗词索引: " ++ rendering), demo_world None)
        /\ ((- 2 ^ 53 < 5 < 2 ^ 53)%Z -> rendering = Z_toString 5))
  /\ (exists rendering,
        getPoem (-2) (demo_world None)
        = (Throw ("无效的诗词索引: " ++ rendering), demo_world None)
        /\ ((- 2 ^ 53 < -2 < 2 ^ 53)%Z -> rendering = Z_toString (-2))).
Proof.
  split; [|split].
  - apply (C4_getPoem_index 2 (demo_world None)); [lia | cbn; lia].
  - apply (C4_getPoem_index 5 (demo_world None)); [lia | cbn; lia].
  - apply (C4_getPoem_index (-2) (demo_world None)); [lia | cbn; lia].
Defined.

(** Beyond that range the digits are abbreviated, or an exponent is
    used. *)
Example getPoem_large_index :
  fst (getPoem (2 ^ 60) (demo_world None))
  = Throw "无效的诗词索引: 1152921504606847000"
  /\ fst (getPoem (10 ^ 21) (demo_world None))
     = Throw "无效的诗词索引: 1e+21".
Proof. split; vm_compute; reflexivity. Qed.

(** ** What each operation asks of the network and of the store *)

Lemma getRandomPoem_issues : issues (chinese_random_request :: nil) getRandomPoem.
Proof. unfold getRandomPoem. effects. Qed.


Lemma fetchEnglishPoem_issues :
  issues (english_random_request :: nil) fetchEnglishPoem.
Proof. unfold fetchEnglishPoem. effects. Qed.

(** The by-author client escapes the name first: a name that cannot be
    escaped ends the call before any request is made. *)
Lemma fetchPoemByAuthor_issues (author_name : string) (w : World) :
  requests (snd (fetchPoemByAuthor author_name w))
  = (requests w
     ++ match encodeURIComponent author_name with
        | Return encodedAuthor => author_request encodedAuthor :: nil
        | Throw _ => nil
        end)%list.
Proof.
  unfold fetchPoemByAuthor.
  destruct (encodeURIComponent author_name) as [encodedAuthor|e].
  - match goal with |- requests (snd (try_catch (bind _ ?k) ?h w)) = _ =>
      assert (H : issues (author_request encodedAuthor :: nil)
                         (try_catch (k encodedAuthor) h)) by effects
    end.
    apply H.
  - cbn. now rewrite app_nil_r.
Qed.

Lemma fetchPoemByLineCount_issues (lineCount : number) :
  issues (linecount_request lineCount :: nil)
         (fetchPoemByLineCount lineCount).
Proof. unfold fetchPoemByLineCount. effects. Qed.

(** Reading the preference yields the persisted value, or chinese. *)
Lemma read_preference {A : Type} (k : Language -> Async A) (w : World) :
  bind poemLanguageStorage_get k w = k (default chinese (poemLanguage w)) w.
Proof. reflexivity. Qed.

Lemma getRandomPoemWithLanguage_issues (w : World) :
  requests (snd (getRandomPoemWithLanguage w))
  = (requests w
     ++ match default chinese (poemLanguage w) with
        | english => english_random_request
        | chinese => chinese_untimed_request
        end :: nil)%list.
Proof.
  unfold getRandomPoemWithLanguage. rewrite read_preference.
  destruct (default chinese (poemLanguage w)).
  - match goal with |- requests (snd (?m w)) = _ =>
      assert (H : issues (chinese_untimed_request :: nil) m) by effects
    end.
    apply H.
  - apply fetchEnglishPoem_issues.
Qed.

Lemma getRandomPoem_preserves : preserves getRandomPoem.
Proof. unfold getRandomPoem. effects. Qed.

Lemma getPoemByCategory_preserves (category : string) :
  preserves (getPoemByCategory category).
Proof. unfold getPoemByCategory. effects. Qed.

Lemma getPoem_preserves (index : Z) : preserves (getPoem index).
Proof. unfold getPoem. effects. apply getRandomPoem_preserves. Qed.

Lemma fetchEnglishPoem_preserves : preserves fetchEnglishPoem.
Proof. unfold fetchEnglishPoem. effects. Qed.

Lemma fetchPoemByAuthor_preserves (author_name : string) :
  preserves (fetchPoemByAuthor author_name).
Proof. unfold fetchPoemByAuthor. effects. Qed.

Lemma fetchPoemByLineCount_preserves (lineCount : number) :
  preserves (fetchPoemByLineCount lineCount).
Proof. unfold fetchPoemByLineCount. effects. Qed.

#[local] Hint Resolve getRandomPoem_preserves getPoemByCategory_preserves
  getPoem_preserves fetchEnglishPoem_preserves fetchPoemByAuthor_preserves
  fetchPoemByLineCount_preserves : effects.

Lemma getRandomPoemWithLanguage_preserves : preserves getRandomPoemWithLanguage.
Proof. unfold getRandomPoemWithLanguage. effects. Qed.

Lemma getPoemByCategoryWithLanguage_preserves (category : string) :
  preserves (getPoemByCategoryWithLanguage category).
Proof. unfold getPoemByCategoryWithLanguage. effects. Qed.

Lemma getCurrentIndex_preserves : preserves getCurrentIndex.
Proof. unfold getCurrentIndex. effects. Qed.

(** ** Operations that cannot tell two worlds apart *)

Section RespectRules.
Variable R : World -> World -> Prop.
Hypothesis R_network : forall w1 w2, R w1 w2 ->
  upstream w1 = upstream w2 /\ requests w1 = requests w2.
Hypothesis R_log : forall r w1 w2, R w1 w2 ->
  R (log_request r w1) (log_request r w2).
Hypothesis R_entropy : forall w1 w2, R w1 w2 ->
  entropy w1 = entropy w2 /\ draws w1 = draws w2.
Hypothesis R_draw : forall w1 w2, R w1 w2 -> R (next_draw w1) (next_draw w2).

Lemma respects_ret {A : Type} (a : A) : respects R (ret a).
Proof. intros w1 w2 H. split; [reflexivity|exact H]. Qed.

Lemma respects_throw {A : Type} (e : string) : respects R (@throw A e).
Proof. intros w1 w2 H. split; [reflexivity|exact H]. Qed.

Lemma respects_bind {A B : Type} (m : Async A) (k : A -> Async B) :
  respects R m -> (forall a, respects R (k a)) -> respects R (bind m k).
Proof.
  intros Hm Hk w1 w2 H. destruct (Hm w1 w2 H) as [E H']. unfold bind.
  destruct (m w1) as [[a1|e1] w1'], (m w2) as [[a2|e2] w2'];
    cbn [fst snd] in *; inversion E; subst; [apply Hk|split]; auto.
Qed.

Lemma respects_try_catch {A : Type} (body : Async A)
      (handler : string -> Async A) :
  respects R body -> (forall e, respects R (handler e)) ->
  respects R (try_catch body handler).
Proof.
  intros Hb Hh w1 w2 H. destruct (Hb w1 w2 H) as [E H']. unfold try_catch.
  destruct (body w1) as [[a1|e1] w1'], (body w2) as [[a2|e2] w2'];
    cbn [fst snd] in *; inversion E; subst; [split|apply Hh]; auto.
Qed.

Lemma respects_lift {A : Type} (c : Completion A) : respects R (lift c).
Proof. intros w1 w2 H. split; [reflexivity|exact H]. Qed.

Lemma respects_fetch (url : string) (abort_after : option nat) :
  respects R (fetch url abort_after).
Proof.
  intros w1 w2 H. destruct (R_network w1 w2 H) as [Eu Er].
  pose proof (R_log (mkFetchRequest url abort_after) w1 w2 H) as Hlog.
  unfold fetch. rewrite Eu, Er.
  destruct abort_after as [t|];
    [destruct (t <? latency _)%nat|];
    try destruct (settlement _); split; auto.
Qed.

Lemma respects_Response_json (r : Response) : respects R (Response_json r).
Proof.
  unfold Response_json.
  destruct (body r); [apply respects_throw|apply respects_ret].
Qed.

Lemma respects_member (v : value) (name : string) :
  respects R (member v name).
Proof. destruct v; first [apply respects_throw | apply respects_ret]. Qed.

Lemma respects_Math_random : respects R Math_random.
Proof.
  intros w1 w2 H. destruct (R_entropy w1 w2 H) as [Ee Ed].
  unfold Math_random. rewrite Ee, Ed. split; [reflexivity|]. now apply R_draw.
Qed.

Ltac respect_step :=
  match goal with
  | |- respects _ (try_catch _ _) => apply respects_try_catch; [|intros ?]
  | |- respects _ (bind _ _) => apply respects_bind; [|intros ?]
  | |- respects _ (fetch _ _) => apply respects_fetch
  | |- respects _ (lift _) => apply respects_lift
  | |- respects _ (Response_json _) => apply respects_Response_json
  | |- respects _ (member _ _) => apply respects_member
  | |- respects _ Math_random => apply respects_Math_random
  | |- respects _ (ret _) => apply respects_ret
  | |- respects _ (throw _) => apply respects_throw
  | |- _ (if ?b then _ else _) => destruct b eqn:?
  | |- _ (match ?x with _ => _ end) => destruct x eqn:?
  end.

Lemma getRandomPoem_respects : respects R getRandomPoem.
Proof. unfold getRandomPoem. cbv zeta. repeat respect_step. Qed.

Lemma getPoemByCategory_respects (category : string) :
  respects R (getPoemByCategory category).
Proof. unfold getPoemByCategory. cbv zeta. repeat respect_step. Qed.

Lemma getPoem_respects (index : Z) : respects R (getPoem index).
Proof.
  unfold getPoem. repeat respect_step. apply getRandomPoem_respects.
Qed.

Lemma fetchEnglishPoem_respects : respects R fetchEnglishPoem.
Proof. unfold fetchEnglishPoem. cbv zeta. repeat respect_step. Qed.

Lemma fetchPoemByAuthor_respects (author_name : string) :
  respects R (fetchPoemByAuthor author_name).
Proof. unfold fetchPoemByAuthor. cbv zeta. repeat respect_step. Qed.

Lemma fetchPoemByLineCount_respects (lineCount : number) :
  respects R (fetchPoemByLineCount lineCount).
Proof. unfold fetchPoemByLineCount. cbv zeta. repeat respect_step. Qed.

(** The operations that read the preference need it to be the same. *)
Hypothesis R_preference : forall w1 w2, R w1 w2 ->
  poemLanguage w1 = poemLanguage w2.

Lemma respects_poemLanguageStorage_get : respects R poemLanguageStorage_get.
Proof.
  intros w1 w2 H. unfold poemLanguageStorage_get.
  rewrite (R_preference w1 w2 H). split; [reflexivity|exact H].
Qed.

Lemma getRandomPoemWithLanguage_respects :
  respects R getRandomPoemWithLanguage.
Proof.
  unfold getRandomPoemWithLanguage.
  apply respects_bind; [apply respects_poemLanguageStorage_get|intros pref].
  destruct pref; [|apply fetchEnglishPoem_respects].
  cbv zeta. repeat respect_step.
Qed.

Lemma getPoemByCategoryWithLanguage_respects (category : string) :
  respects R (getPoemByCategoryWithLanguage category).
Proof.
  unfold getPoemByCategoryWithLanguage.
  apply respects_bind; [apply respects_poemLanguageStorage_get|intros pref].
  destruct pref.
  - cbv zeta. repeat respect_step.
  - cbv zeta.
    repeat match goal with
           | |- respects _ (if ?b then _ else _) => destruct b
           end;
      first [apply fetchPoemByAuthor_respects
            | apply fetchPoemByLineCount_respects
            | apply fetchEnglishPoem_respects].
Qed.
End RespectRules.

Lemma same_but_preference_with (pref : option Language) (w : World) :
  same_but_preference (with_poemLanguage pref w) w.
Proof. repeat split. Qed.

Lemma same_but_idb_with (name : StoreName) (st : gmap string value)
      (w : World) :
  same_but_idb (with_store name st w) w.
Proof. repeat split. Qed.

Lemma same_but_preference_network (w1 w2 : World) :
  same_but_preference w1 w2 ->
  upstream w1 = upstream w2 /\ requests w1 = requests w2.
Proof. unfold same_but_preference. tauto. Qed.

Lemma same_but_preference_log (r : FetchRequest) (w1 w2 : World) :
  same_but_preference w1 w2 ->
  same_but_preference (log_request r w1) (log_request r w2).
Proof.
  unfold same_but_preference. cbn. intros (?&?&?&?&?&->). tauto.
Qed.

Lemma same_but_idb_network (w1 w2 : World) :
  same_but_idb w1 w2 ->
  upstream w1 = upstream w2 /\ requests w1 = requests w2.
Proof. unfold same_but_idb. tauto. Qed.

Lemma same_but_idb_log (r : FetchRequest) (w1 w2 : World) :
  same_but_idb w1 w2 -> same_but_idb (log_request r w1) (log_request r w2).
Proof. unfold same_but_idb. cbn. intros (?&?&?&?&->). tauto. Qed.

Lemma same_but_idb_entropy (w1 w2 : World) :
  same_but_idb w1 w2 -> entropy w1 = entropy w2 /\ draws w1 = draws w2.
Proof. unfold same_but_idb. tauto. Qed.

Lemma same_but_idb_draw (w1 w2 : World) :
  same_but_idb w1 w2 -> same_but_idb (next_draw w1) (next_draw w2).
Proof. unfold same_but_idb. cbn. intros (?&?&?&->&?). tauto. Qed.

Lemma same_but_idb_preference (w1 w2 : World) :
  same_but_idb w1 w2 -> poemLanguage w1 = poemLanguage w2.
Proof. unfold same_but_idb. tauto. Qed.

(** [getRandomPoem] answers alike whatever the persisted preference. *)
Lemma getRandomPoem_ignores_preference (pref : option Language) (w : World) :
  fst (getRandomPoem (with_poemLanguage pref w)) = fst (getRandomPoem w).
Proof.
  pose proof (getRandomPoem_respects same_but_preference) as H.
  unfold respects in H.
  apply H;
    auto using same_but_preference_network, same_but_preference_log,
      same_but_preference_with.
Qed.

(** ** What the returned records look like *)

Lemma truthy_or_else (v d : value) :
  truthy d = true -> truthy (or_else v d) = true.
Proof. intros H. unfold or_else. destruct (truthy v) eqn:E; assumption. Qed.

Lemma truthy_string (s : string) :
  truthy (VStr s) = true <-> s <> "".
Proof.
  unfold truthy. destruct (String.eqb_spec s ""); cbn [negb]; split; intros;
    congruence.
Qed.


Ltac mapped :=
  repeat split; cbn [title author language source];
  try (apply truthy_or_else; reflexivity);
  try reflexivity.

Lemma getRandomPoem_ensures : ensures chinese_mapped getRandomPoem.
Proof. unfold getRandomPoem. effects. mapped. Qed.

Lemma getPoemByCategory_ensures (category : string) :
  ensures chinese_mapped (getPoemByCategory category).
Proof.
  unfold getPoemByCategory. effects. mapped.
Qed.

Lemma fetchEnglishPoem_ensures : ensures english_mapped fetchEnglishPoem.
Proof. unfold fetchEnglishPoem. effects. mapped. Qed.



Lemma getRandomPoemWithLanguage_ensures :
  ensures (fun poem => chinese_mapped poem \/ english_mapped poem)
          getRandomPoemWithLanguage.
Proof.
  unfold getRandomPoemWithLanguage. apply ensures_bind. intros pref.
  destruct pref.
  - effects. left. mapped.
  - intros w a H. right. exact (fetchEnglishPoem_ensures w a H).
Qed.

(** ** [getPoem] with the sentinel index *)

(** C1 (as the code has it): whatever the persisted preference,
    [getPoem(-1)] is [getRandomPoem]: it issues the one request to the
    Chinese random endpoint, under the abort timer, answers alike for every
    preference, and what it returns is never a local sample. *)
Theorem C1_getPoem_sentinel_is_chinese_random (w : World) :
  getPoem (-1) w = getRandomPoem w
  /\ requests (snd (getPoem (-1) w))
     = (requests w ++ chinese_random_request :: nil)%list
  /\ (forall pref,
        fst (getPoem (-1) (with_poemLanguage pref w)) = fst (getPoem (-1) w))
  /\ (forall poem,
        fst (getPoem (-1) w) = Return poem -> ~ In poem SAMPLE_POEMS).
Proof.
  assert (E : forall w', getPoem (-1) w' = getRandomPoem w') by reflexivity.
  repeat split.
  - rewrite E. apply getRandomPoem_issues.
  - intros pref. rewrite !E. apply getRandomPoem_ignores_preference.
  - intros poem Hret Hin. rewrite E in Hret.
    destruct (getRandomPoem_ensures w poem Hret) as (_ & _ & Hlang & _).
    rewrite (SAMPLE_POEMS_untagged poem Hin) in Hlang. discriminate.
Qed.

Lemma C1_getPoem_sentinel_is_chinese_random_witness :
  ~ In demo_chinese_record SAMPLE_POEMS.
Proof.
  apply (proj2 (proj2 (proj2
           (C1_getPoem_sentinel_is_chinese_random (demo_world (Some english)))))
           demo_chinese_record).
  vm_compute. reflexivity.
Defined.

(** With the preference set to english, [getPoem(-1)] still asks the
    Chinese service and returns its poem, where the language-routed random
    operation asks PoetryDB. *)
Lemma C1_english_preference_not_routed :
  poemLanguage (demo_world (Some english)) = Some english
  /\ requests (snd (getPoem (-1) (demo_world (Some english))))
     = chinese_random_request :: nil
  /\ requests (snd (getRandomPoemWithLanguage (demo_world (Some english))))
     = english_random_request :: nil
  /\ fst (getPoem (-1) (demo_world (Some english)))
     = Return {| title := VStr "静夜思";
                 content := VStr "床前明月光";
                 author := VStr "李白";
                 dynasty := Some (VStr "");
                 translation := None;
                 source := Some "今日诗词 API";
                 link := Some "https://www.jinrishici.com/";
                 language := Some chinese |}
  /\ fst (getPoem (-1) (demo_world (Some english)))
     <> fst (getRandomPoemWithLanguage (demo_world (Some english))).
Proof.
  repeat split; try (vm_compute; reflexivity).
  vm_compute. intros H. discriminate H.
Qed.

(** ** The message relay *)

(** A request type outside the four handled ones is answered with a failure
    envelope naming it, and changes nothing. *)
Lemma onMessage_unknown_type (request : Message) (w : World) :
  msg_type request <> "GET_RANDOM_POEM" ->
  msg_type request <> "GET_POEM_BY_CATEGORY" ->
  msg_type request <> "GET_POEM" ->
  msg_type request <> "GET_CURRENT_INDEX" ->
  onMessage request w
  = (Failure ("未知的请求类型: " ++ msg_type request), w).
Proof.
  intros H1 H2 H3 H4. unfold onMessage, handleRequest.
  apply String.eqb_neq in H1, H2, H3, H4. rewrite H1, H2, H3, H4.
  reflexivity.
Qed.

Lemma relay_has_no_set_current_index (index : Z) (category : string)
      (w : World) :
  onMessage (mkMessage "SET_CURRENT_INDEX" category index) w
  = (Failure ("未知的请求类型: " ++ "SET_CURRENT_INDEX"), w).
Proof. apply onMessage_unknown_type; discriminate. Qed.

(** C2 (what the code does): a [SET_CURRENT_INDEX] message, whatever its
    index, has no case in the relay; it is answered with the failure
    envelope of an unknown request type and the world is left as it was. *)
Theorem C2_set_current_index_is_unknown (index : Z) (category : string)
        (w : World) :
  onMessage (mkMessage "SET_CURRENT_INDEX" category index) w
  = (Failure "未知的请求类型: SET_CURRENT_INDEX", w).
Proof. apply relay_has_no_set_current_index. Qed.

(** ** The current index *)

(** With nothing stored under the key, the current index is 0. *)
Lemma getCurrentIndex_unset (w : World) :
  idb_metadata w !! STORAGE_KEYS_currentIndex = None ->
  getCurrentIndex w = (Return (Int 0), w).
Proof.
  intros H. unfold getCurrentIndex, bind, dbRead, ret. cbn [store_of
    DB_CONFIG_stores_metadata]. rewrite H. reflexivity.
Qed.

(** A stored non-empty string is read back through [parseInt]. *)
Lemma getCurrentIndex_stored (w : World) (s : string) :
  idb_metadata w !! STORAGE_KEYS_currentIndex = Some (VStr s) ->
  s <> "" ->
  getCurrentIndex w = (Return (parseInt s), w).
Proof.
  intros H Hs. unfold getCurrentIndex, bind, dbRead, ret. cbn [store_of
    DB_CONFIG_stores_metadata]. rewrite H.
  change (default VUndefined (Some (VStr s))) with (VStr s).
  apply truthy_string in Hs. rewrite Hs. reflexivity.
Qed.

Example getCurrentIndex_stored_7 :
  fst (getCurrentIndex
         (with_store metadata {[ STORAGE_KEYS_currentIndex := VStr "7" ]}
                     (demo_world None)))
  = Return (Int 7).
Proof. vm_compute. reflexivity. Qed.

(** C8 (what the code does): on a fresh store, after the relay has been
    sent [SET_CURRENT_INDEX] with index 3, [GET_CURRENT_INDEX] still
    answers 0: the relay rejected the request and stored nothing. *)
Theorem C8_set_then_get_current_index :
  let w0 := demo_world None in
  let w1 := snd (onMessage (mkMessage "SET_CURRENT_INDEX" "" 3) w0) in
  fst (onMessage (mkMessage "SET_CURRENT_INDEX" "" 3) w0)
  = Failure "未知的请求类型: SET_CURRENT_INDEX"
  /\ w1 = w0
  /\ fst (onMessage (mkMessage "GET_CURRENT_INDEX" "" 0) w1)
     = Success (NumberData (Int 0)).
Proof.
  cbv zeta. rewrite !relay_has_no_set_current_index. cbn [fst snd].
  split; [reflexivity|split; [reflexivity|]]. unfold onMessage.
  change (handleRequest (mkMessage "GET_CURRENT_INDEX" "" 0))
    with (bind getCurrentIndex (fun n => ret (NumberData n))).
  unfold bind. rewrite getCurrentIndex_unset by apply lookup_empty.
  reflexivity.
Qed.

(** ** Timeouts *)

(** [getRandomPoem] gives up when the answer takes longer than its timer. *)
Lemma getRandomPoem_times_out (w : World) :
  (POEM_API_CONFIG_timeout
   < latency (upstream w (List.length (requests w))
                       "https://v1.jinrishici.com/all.json"))%nat ->
  fst (getRandomPoem w)
  = Throw ("无法获取诗词数据: " ++ AbortError_message).
Proof.
  intros H. apply Nat.ltb_lt in H.
  unfold getRandomPoem, try_catch, bind, fetch. cbv zeta. rewrite H.
  reflexivity.
Qed.

(** Without a timer, [fetch] waits for the network however long it takes. *)
Lemma fetch_untimed (url : string) (w : World) :
  fetch url None w
  = (match settlement (upstream w (List.length (requests w)) url) with
     | Rejects m => Throw m
     | Resolves r => Return r
     end, log_request (mkFetchRequest url None) w).
Proof. unfold fetch. destruct (settlement _); reflexivity. Qed.

(** No client other than [getRandomPoem] attaches a timer. *)
Lemma other_clients_untimed :
  req_abort_after chinese_untimed_request = None
  /\ (forall c, req_abort_after (chinese_category_request c) = None)
  /\ req_abort_after english_random_request = None
  /\ (forall a, req_abort_after (author_request a) = None)
  /\ (forall n, req_abort_after (linecount_request n) = None).
Proof. repeat split. Qed.

(** C7 (what the code does): with the preference chinese and a network
    that takes six seconds, [getRandomPoem] fails with the abort error, but
    the Chinese fetch of [getRandomPoemWithLanguage] has no timer: it waits
    and returns the poem. *)
Theorem C7_language_routed_chinese_fetch_untimed :
  let w := slow_world (Some chinese) in
  fst (getRandomPoem w)
  = Throw ("无法获取诗词数据: " ++ AbortError_message)
  /\ requests (snd (getRandomPoemWithLanguage w))
     = mkFetchRequest "https://v1.jinrishici.com/all.json" None :: nil
  /\ fst (getRandomPoemWithLanguage w)
     = Return {| title := VStr "静夜思";
                 content := VStr "床前明月光";
                 author := VStr "李白";
                 dynasty := Some (VStr "");
                 translation := None;
                 source := Some "今日诗词 API";
                 link := Some "https://www.jinrishici.com/";
                 language := Some chinese |}.
Proof. repeat split; vm_compute; reflexivity. Qed.

(** ** Persistent state *)

Lemma same_but_idb_facade (w : World) (name : StoreName)
      (st : gmap string value) :
  (forall index,
      fst (getPoem index (with_store name st w)) = fst (getPoem index w))
  /\ fst (getRandomPoemWithLanguage (with_store name st w))
     = fst (getRandomPoemWithLanguage w)
  /\ (forall category,
        fst (getPoemByCategoryWithLanguage category (with_store name st w))
        = fst (getPoemByCategoryWithLanguage category w)).
Proof.
  pose proof (getPoem_respects same_but_idb) as H1.
  pose proof (getRandomPoemWithLanguage_respects same_but_idb) as H2.
  pose proof (getPoemByCategoryWithLanguage_respects same_but_idb) as H3.
  unfold respects in *.
  repeat split; intros;
    first [apply H1 | apply H2 | apply H3];
    auto using same_but_idb_network, same_but_idb_log, same_but_idb_entropy,
      same_but_idb_draw, same_but_idb_preference, same_but_idb_with.
Qed.

(** C9: no poem-fetch operation writes to persistent state: after each of
    them the language preference and both IndexedDB stores (the current
    index among them) are what they were; and the facade operations do
    not read the stores either, answering alike whatever they hold. *)
Theorem C9_fetch_operations_do_not_write (w : World) :
  (forall index, persisted (snd (getPoem index w)) = persisted w)
  /\ persisted (snd (getRandomPoemWithLanguage w)) = persisted w
  /\ (forall category,
        persisted (snd (getPoemByCategoryWithLanguage category w))
        = persisted w)
  /\ persisted (snd (getRandomPoem w)) = persisted w
  /\ (forall category,
        persisted (snd (getPoemByCategory category w)) = persisted w)
  /\ persisted (snd (fetchEnglishPoem w)) = persisted w
  /\ (forall name, persisted (snd (fetchPoemByAuthor name w)) = persisted w)
  /\ (forall n, persisted (snd (fetchPoemByLineCount n w)) = persisted w)
  /\ (forall name st,
        (forall index,
            fst (getPoem index (with_store name st w))
            = fst (getPoem index w))
        /\ fst (getRandomPoemWithLanguage (with_store name st w))
           = fst (getRandomPoemWithLanguage w)
        /\ (forall category,
              fst (getPoemByCategoryWithLanguage category
                     (with_store name st w))
              = fst (getPoemByCategoryWithLanguage category w))).
Proof.
  repeat match goal with |- _ /\ _ => split end; intros.
  - apply getPoem_preserves.
  - apply getRandomPoemWithLanguage_preserves.
  - apply getPoemByCategoryWithLanguage_preserves.
  - apply getRandomPoem_preserves.
  - apply getPoemByCategory_preserves.
  - apply fetchEnglishPoem_preserves.
  - apply fetchPoemByAuthor_preserves.
  - apply fetchPoemByLineCount_preserves.
  - apply same_but_idb_facade.
Qed.

(** ** [parseInt] reads back the decimal rendering of an integer *)

Lemma leading_digits_uint (d : Decimal.uint) :
  leading_digits 10 (NilEmpty.string_of_uint d) = uint_digits d.
Proof.
  induction d; cbn [NilEmpty.string_of_uint uint_digits leading_digits];
    [reflexivity|..];
    match goal with
    | |- context [digit_value 10 ?c] =>
        change (digit_value 10 c) with (Some (Z.of_N (byte_of c) - 48)%Z)
    end; now rewrite IHd.
Qed.

Lemma of_uint_acc_digits (d : Decimal.uint) (acc : positive) :
  Z.pos (Pos.of_uint_acc d acc)
  = fold_left (fun a k => (a * 10 + k)%Z) (uint_digits d) (Z.pos acc).
Proof.
  revert acc.
  induction d; intros acc; cbn [Pos.of_uint_acc uint_digits fold_left];
    [reflexivity|..]; rewrite IHd; f_equal; lia.
Qed.

Lemma of_uint_digits (d : Decimal.uint) :
  Z.of_N (Pos.of_uint d) = digits_value 10 (uint_digits d).
Proof.
  unfold digits_value.
  induction d; cbn [Pos.of_uint uint_digits fold_left];
    [reflexivity | exact IHd | ..];
    cbn [Z.of_N]; apply of_uint_acc_digits.
Qed.

(** A numeral starts with no white space, no sign and no hexadecimal
    prefix. *)
Lemma trimStart_uint (d : Decimal.uint) :
  trimStart (NilEmpty.string_of_uint d) = NilEmpty.string_of_uint d.
Proof.
  destruct d; [reflexivity|..]; cbn [NilEmpty.string_of_uint];
    destruct (NilEmpty.string_of_uint d) as [|c2 [|c3 r3]]; reflexivity.
Qed.

Lemma no_hex_prefix_uint (d : Decimal.uint) :
  String.prefix "0x" (NilEmpty.string_of_uint d) = false
  /\ String.prefix "0X" (NilEmpty.string_of_uint d) = false.
Proof.
  destruct d; try (split; reflexivity).
  destruct d; split; reflexivity.
Qed.

Lemma parseInt_unsigned (d : Decimal.uint) :
  d <> Decimal.Nil ->
  parseInt (NilEmpty.string_of_uint d) = to_double (Z.of_N (Pos.of_uint d)).
Proof.
  intros Hd. unfold parseInt. rewrite trimStart_uint.
  assert (E : match NilEmpty.string_of_uint d with
              | String "-" r => ((-1)%Z, r)
              | String "+" r => (1%Z, r)
              | _ => (1%Z, NilEmpty.string_of_uint d)
              end = (1%Z, NilEmpty.string_of_uint d)).
  { destruct d; reflexivity. }
  rewrite E. clear E.
  destruct (no_hex_prefix_uint d) as [-> ->]. cbn [orb].
  rewrite leading_digits_uint, of_uint_digits.
  destruct (uint_digits d) eqn:Hdigits.
  - destruct d; discriminate || congruence.
  - f_equal; lia.
Qed.

Lemma parseInt_negative (d : Decimal.uint) :
  d <> Decimal.Nil ->
  parseInt (String "-" (NilEmpty.string_of_uint d))
  = to_double (- Z.of_N (Pos.of_uint d)).
Proof.
  intros Hd. unfold parseInt.
  assert (E : trimStart (String "-" (NilEmpty.string_of_uint d))
              = String "-" (NilEmpty.string_of_uint d)).
  { destruct (NilEmpty.string_of_uint d) as [|c2 [|c3 r3]]; reflexivity. }
  rewrite E. cbv iota beta.
  destruct (no_hex_prefix_uint d) as [-> ->]. cbn [orb].
  rewrite leading_digits_uint, of_uint_digits.
  destruct (uint_digits d) eqn:Hdigits.
  - destruct d; discriminate || congruence.
  - f_equal; lia.
Qed.

Lemma string_of_uint_nonnil (d : Decimal.uint) :
  d <> Decimal.Nil ->
  NilZero.string_of_uint d = NilEmpty.string_of_uint d.
Proof. destruct d; [congruence|reflexivity..]. Qed.

(** Integers up to 2^53 in magnitude are doubles. *)
Lemma to_double_safe (z : Z) :
  (- 2 ^ 53 < z < 2 ^ 53)%Z -> to_double z = Int z.
Proof.
  intros Hz. unfold to_double. cbv zeta.
  rewrite round53_small by lia.
  assert (Hbig : (2 ^ 53 < 2 ^ 1024)%Z) by (apply Z.pow_lt_mono_r; lia).
  replace (2 ^ 1024 <=? Z.abs z)%Z with false
    by (symmetry; apply Z.leb_gt; lia).
  f_equal. destruct z; reflexivity.
Qed.

(** Reading back the decimal numeral of an integer gives the double
    nearest to it. *)
Lemma parseInt_Z_toString_rounds (n : Z) :
  parseInt (Z_toString n) = to_double n.
Proof.
  unfold Z_toString. destruct n as [|p|p]; [reflexivity|..];
    cbn [Z.to_int NilZero.string_of_int];
    pose proof (DecimalPos.Unsigned.to_uint_nonnil p) as Hnil;
    rewrite (string_of_uint_nonnil _ Hnil).
  - rewrite (parseInt_unsigned _ Hnil), DecimalPos.Unsigned.of_to.
    reflexivity.
  - rewrite (parseInt_negative _ Hnil), DecimalPos.Unsigned.of_to.
    reflexivity.
Qed.

(** For an integer up to 2^53 in magnitude that is the integer itself. *)
Lemma parseInt_Z_toString (n : Z) :
  (- 2 ^ 53 < n < 2 ^ 53)%Z -> parseInt (Z_toString n) = Int n.
Proof.
  intros Hn. rewrite parseInt_Z_toString_rounds. now apply to_double_safe.
Qed.

Lemma Z_toString_nonempty (n : Z) : Z_toString n <> "".
Proof.
  intros E. pose proof (parseInt_Z_toString_rounds n) as P. rewrite E in P.
  change (parseInt "") with NaN in P. unfold to_double in P.
  cbv zeta in P. destruct (2 ^ 1024 <=? round53 (Z.abs n))%Z; discriminate P.
Qed.

(** So a current index stored as its decimal numeral is read back. *)
Lemma getCurrentIndex_reads_decimal (w : World) (n : Z) :
  (- 2 ^ 53 < n < 2 ^ 53)%Z ->
  idb_metadata w !! STORAGE_KEYS_currentIndex = Some (VStr (Z_toString n)) ->
  getCurrentIndex w = (Return (Int n), w).
Proof.
  intros Hn H. rewrite <- (parseInt_Z_toString n Hn).
  apply getCurrentIndex_stored; [exact H|]. apply Z_toString_nonempty.
Qed.

(** ** Category routing under the english preference *)

Section EnglishRoutes.
Variable w : World.
Hypothesis Hpref : poemLanguage w = Some english.

Lemma english_author_route (name : string) :
  getPoemByCategoryWithLanguage ("author/" ++ name) w
  = fetchPoemByAuthor name w.
Proof.
  unfold getPoemByCategoryWithLanguage. rewrite read_preference, Hpref.
  change (default chinese (Some english)) with english. cbv iota zeta.
  unfold startsWith. now rewrite prefix_append, String_replace_prefix.
Qed.

Lemma english_linecount_route (suffix : string) :
  getPoemByCategoryWithLanguage ("linecount/" ++ suffix) w
  = fetchPoemByLineCount (parseInt suffix) w.
Proof.
  unfold getPoemByCategoryWithLanguage. rewrite read_preference, Hpref.
  change (default chinese (Some english)) with english. cbv iota zeta.
  unfold startsWith.
  change (String.prefix "author/" ("linecount/" ++ suffix)) with false.
  now rewrite prefix_append, String_replace_prefix.
Qed.

Lemma english_default_route (category : string) :
  startsWith category "author/" = false ->
  startsWith category "linecount/" = false ->
  getPoemByCategoryWithLanguage category w = fetchEnglishPoem w.
Proof.
  intros Ha Hl.
  unfold getPoemByCategoryWithLanguage. rewrite read_preference, Hpref.
  change (default chinese (Some english)) with english. cbv iota zeta.
  rewrite Ha, Hl.
  destruct (String.eqb category "random" || String.eqb category "all");
    reflexivity.
Qed.
End EnglishRoutes.

(** C5: with the preference english, a category ["author/" ++ name] is
    served by the by-author client for [name], a category
    ["linecount/" ++ suffix] by the by-line-count client for
    [parseInt suffix], and every other category (["random"], ["all"], the
    empty string, anything else) by the English random client, with no
    error of its own for an unrecognized category. *)
Theorem C5_english_category_routing (category : string) (w : World)
        (Hpref : poemLanguage w = Some english) :
  (forall name, category = "author/" ++ name ->
     getPoemByCategoryWithLanguage category w = fetchPoemByAuthor name w)
  /\ (forall suffix, category = "linecount/" ++ suffix ->
        getPoemByCategoryWithLanguage category w
        = fetchPoemByLineCount (parseInt suffix) w)
  /\ (startsWith category "author/" = false ->
      startsWith category "linecount/" = false ->
      getPoemByCategoryWithLanguage category w = fetchEnglishPoem w).
Proof.
  repeat split.
  - intros name ->. now apply english_author_route.
  - intros suffix ->. now apply english_linecount_route.
  - now apply english_default_route.
Qed.

Lemma C5_english_category_routing_witness :
  getPoemByCategoryWithLanguage "author/Emily Dickinson"
                                (demo_world (Some english))
  = fetchPoemByAuthor "Emily Dickinson" (demo_world (Some english))
  /\ getPoemByCategoryWithLanguage "linecount/14" (demo_world (Some english))
     = fetchPoemByLineCount (parseInt "14") (demo_world (Some english))
  /\ getPoemByCategoryWithLanguage "" (demo_world (Some english))
     = fetchEnglishPoem (demo_world (Some english)).
Proof.
  split; [|split].
  - apply (C5_english_category_routing "author/Emily Dickinson"
             (demo_world (Some english)) eq_refl).
    reflexivity.
  - apply (C5_english_category_routing "linecount/14"
             (demo_world (Some english)) eq_refl).
    reflexivity.
  - apply (C5_english_category_routing ""
             (demo_world (Some english)) eq_refl); reflexivity.
Defined.

(** The unrecognized categories are served, not refused. *)
Example unrecognized_category_served :
  fst (getPoemByCategoryWithLanguage "sonnets" (demo_world (Some english)))
  = Return {| title := VStr "Hope";
              content := VStr ("a" ++ LF ++ "b");
              author := VStr "Emily Dickinson";
              dynasty := None;
              translation := None;
              source := Some "PoetryDB";
              link := Some "https://poetrydb.org/title/Hope";
              language := Some english |}.
Proof. vm_compute. reflexivity. Qed.

(** ** Conversions that throw *)

(** The one error of ToString on these values. *)
Lemma toString_throws (v : value) (e : string) :
  toString v = Throw e -> e = not_primitive.
Proof.
  revert v e. fix IH 1. intros v e.
  destruct v as [| |b|n|s|items|fields]; try discriminate.
  - destruct b; discriminate.
  - cbn [toString]. revert e.
    induction items as [|x rest IHrest]; intros e; [discriminate|].
    pose proof (IH x) as IHx.
    destruct (match x with
              | VUndefined | VNull => Return ""
              | _ => toString x
              end) as [sx|ex] eqn:Ex.
    + destruct rest as [|y rest']; [discriminate|].
      destruct ((fix commas (l : list value) : Completion string :=
                   match l with
                   | nil => Return ""
                   | x0 :: rest0 =>
                       match (match x0 with
                              | VUndefined | VNull => Return ""
                              | _ => toString x0
                              end) with
                       | Throw e0 => Throw e0
                       | Return sx0 =>
                           match rest0 with
                           | nil => Return sx0
                           | _ :: _ =>
                               match commas rest0 with
                               | Throw e0 => Throw e0
                               | Return sr => Return (sx0 ++ "," ++ sr)
                               end
                           end
                       end
                   end) (y :: rest')) as [sr|er] eqn:Er.
      * discriminate.
      * intros [= <-]. now apply IHrest.
    + intros [= <-]. apply IHx. destruct x; try discriminate Ex; exact Ex.
  - cbn [toString]. destruct (hasOwnProperty "toString" fields);
      [intros [= <-]; reflexivity | discriminate].
Qed.

Lemma Array_join_throws (sep : string) (l : list value) (e : string) :
  Array_join sep l = Throw e -> e = not_primitive.
Proof.
  revert e. induction l as [|x rest IH]; intros e; [discriminate|].
  cbn [Array_join].
  destruct (join_element x) as [sx|ex] eqn:Ex.
  - destruct rest as [|y rest']; [discriminate|].
    destruct (Array_join sep (y :: rest')) as [sr|er]; [discriminate|].
    intros [= <-]. now apply IH.
  - intros [= <-]. unfold join_element in Ex.
    destruct x; try discriminate Ex; exact (toString_throws _ _ Ex).
Qed.

Lemma lines_content_throws (lines : value) (e : string) :
  lines_content lines = Throw e -> e = not_primitive.
Proof.
  destruct lines as [| | | | |items|]; try discriminate.
  cbn [lines_content].
  destruct (Array_join LF items) as [s|e'] eqn:E; [discriminate|].
  intros [= <-]. exact (Array_join_throws _ _ _ E).
Qed.

(** An array of strings is joined without error. *)
Lemma Array_join_strings (sep : string) (l : list value) :
  Forall (fun x => exists s, x = VStr s) l ->
  exists s, Array_join sep l = Return s.
Proof.
  induction 1 as [|x rest [sx ->] _ [sr IH]]; [now exists ""|].
  cbn [Array_join join_element toString].
  destruct rest as [|y rest']; [now exists sx|].
  rewrite IH. now eexists.
Qed.

(** ** The PoetryDB list clients *)

(** What the by-author client makes of a 2xx JSON answer, for a name that
    can be escaped. *)
Lemma fetchPoemByAuthor_on_answer (author_name encodedAuthor : string)
      (w : World) (r : Response) (poems : value) :
  encodeURIComponent author_name = Return encodedAuthor ->
  settlement (upstream w (List.length (requests w))
                       (req_url (author_request encodedAuthor))) = Resolves r ->
  ok r = true -> body r = inr poems ->
  fst (fetchPoemByAuthor author_name w)
  = rethrow (author_failure author_name)
      match poems with
      | VArr (first :: others) =>
          list_entry_outcome (author_record encodedAuthor)
                             (selected w (first :: others))
      | _ => Throw ("未找到" ++ author_name ++ "的诗歌")
      end.
Proof.
  intros Hname Hsettle Hok Hbody.
  unfold fetchPoemByAuthor, try_catch.
  unfold bind at 1. unfold lift at 1. rewrite Hname. cbv zeta.
  unfold bind at 1. rewrite fetch_untimed.
  change (POETRYDB_API_CONFIG_baseUrl ++ POETRYDB_API_CONFIG_endpoints_author
          ++ "/" ++ encodedAuthor ++ "/title,author,lines")
    with (req_url (author_request encodedAuthor)).
  rewrite Hsettle, Hok. cbn [negb].
  unfold bind at 1, Response_json. rewrite Hbody. unfold ret at 1.
  destruct poems as [| | | | |[|first others]|]; try reflexivity.
  unfold bind at 1, Math_random, selected.
  cbn [entropy draws log_request].
  unfold list_entry_outcome.
  destruct (default VUndefined _) as [| |b|n|s|items|fields];
    try reflexivity;
    unfold bind, member, lift, ret, rethrow, entry_error;
    destruct (lines_content _); reflexivity.
Qed.

(** What the by-line-count client makes of a 2xx JSON answer. *)
Lemma fetchPoemByLineCount_on_answer (lineCount : number) (w : World)
      (r : Response) (poems : value) :
  settlement (upstream w (List.length (requests w))
                       (req_url (linecount_request lineCount))) = Resolves r ->
  ok r = true -> body r = inr poems ->
  fst (fetchPoemByLineCount lineCount w)
  = rethrow (linecount_failure lineCount)
      match poems with
      | VArr (first :: others) =>
          list_entry_outcome (linecount_record lineCount)
                             (selected w (first :: others))
      | _ => Throw ("未找到" ++ number_toString lineCount ++ "行的诗歌")
      end.
Proof.
  intros Hsettle Hok Hbody.
  unfold fetchPoemByLineCount, try_catch. cbv zeta.
  unfold bind at 1. rewrite fetch_untimed.
  change (POETRYDB_API_CONFIG_baseUrl
          ++ POETRYDB_API_CONFIG_endpoints_lineCount ++ "/"
          ++ number_toString lineCount ++ "/title,author,lines")
    with (req_url (linecount_request lineCount)).
  rewrite Hsettle, Hok. cbn [negb].
  unfold bind at 1, Response_json. rewrite Hbody. unfold ret at 1.
  destruct poems as [| | | | |[|first others]|]; try reflexivity.
  unfold bind at 1, Math_random, selected.
  cbn [entropy draws log_request].
  unfold list_entry_outcome.
  destruct (default VUndefined _) as [| |b|n|s|items|fields];
    try reflexivity;
    unfold bind, member, lift, ret, rethrow, entry_error;
    destruct (lines_content _); reflexivity.
Qed.

(** The selected entry is one of the array, at the index drawn. *)
Lemma selected_lookup (w : World) (items : list value) :
  items <> nil ->
  let i := Math_floor_times (entropy w (draws w) mod 2 ^ 53)
                            (List.length items) in
  (i < List.length items)%nat /\ items !! i = Some (selected w items).
Proof.
  intros Hne. cbv zeta.
  assert (Hlt : (Math_floor_times (entropy w (draws w) mod 2 ^ 53)
                                  (List.length items)
                 < List.length items)%nat).
  { apply Math_floor_times_lt; [apply draw_in_range|].
    destruct items; [congruence | cbn; lia]. }
  split; [exact Hlt|].
  unfold selected.
  destruct (lookup_lt_is_Some_2 items _ Hlt) as [x Hx]. now rewrite Hx.
Qed.

Lemma selected_In (w : World) (items : list value) :
  items <> nil -> In (selected w items) items.
Proof.
  intros Hne. destruct (selected_lookup w items Hne) as [_ H].
  apply list_elem_of_In. eapply list_elem_of_lookup_2. exact H.
Qed.

(** The failures of an entry are the engine's, in English. *)
Lemma list_entry_outcome_throws (record : value -> value -> AssetData)
      (poem : value) (e : string) :
  list_entry_outcome record poem = Throw e ->
  String.prefix "Cannot " e = true.
Proof.
  unfold list_entry_outcome.
  destruct (entry_error poem) as [e'|] eqn:He.
  - intros [= <-]. destruct poem; try discriminate He;
      injection He as <-; reflexivity.
  - destruct (lines_content _) as [c|e'] eqn:Hl; [discriminate|].
    intros [= <-]. now rewrite (lines_content_throws _ _ Hl).
Qed.

Lemma list_entry_outcome_returns (record : value -> value -> AssetData)
      (poem poem_content : value) :
  entry_error poem = None ->
  lines_content (property poem "lines") = Return poem_content ->
  list_entry_outcome record poem = Return (record poem poem_content).
Proof. intros He Hl. unfold list_entry_outcome. now rewrite He, Hl. Qed.

(** The draws that select an index are about as many for one index as for
    another: they are the draws of an interval, the intervals follow one
    another in the order of the indices from 0 to 2^53, and each holds
    2^53 / len draws, give or take two. *)
Lemma near_uniform_selection (len : nat) :
  (0 < len)%nat -> (Z.of_nat len <= 2 ^ 53)%Z ->
  first_draw (Z.of_nat len) 0 = 0%Z
  /\ first_draw (Z.of_nat len) (Z.of_nat len) = (2 ^ 53)%Z
  /\ (forall i : nat, (i < len)%nat ->
      (forall draw, (0 <= draw < 2 ^ 53)%Z ->
         Math_floor_times draw len = i
         <-> (first_draw (Z.of_nat len) (Z.of_nat i) <= draw
              < first_draw (Z.of_nat len) (Z.of_nat (S i)))%Z)
      /\ (2 ^ 53 / Z.of_nat len - 1
          <= first_draw (Z.of_nat len) (Z.of_nat (S i))
             - first_draw (Z.of_nat len) (Z.of_nat i)
          <= 2 ^ 53 / Z.of_nat len + 2)%Z).
Proof.
  intros Hpos Hlen. split; [|split].
  - apply first_draw_0. lia.
  - apply first_draw_last. lia.
  - intros i Hi. split.
    + intros draw Hdraw. apply Math_floor_times_interval; lia.
    + rewrite Nat2Z.inj_succ, <- Z.add_1_r.
      apply first_draw_spacing; lia.
Qed.

(** C6 (as the code has it): for an author name that can be escaped and a
    2xx JSON answer, the by-author client fails with the not-found error
    for that author exactly when the answer is not an array or is the
    empty array; on a non-empty array it selects the entry at index
    floor(random * length), which is within the array, and from an entry
    that is neither null nor undefined, and whose lines join without
    error, it builds a record whose content is the lines joined by
    newlines (or the raw field), tagged english, with source PoetryDB.
    The selection is uniform up to rounding: of the 2^53 draws, those that
    select a given index of [len] entries are the draws of an interval;
    the intervals follow one another from 0 to 2^53 in the order of the
    indices, and each holds 2^53 / len draws, give or take two. *)
Theorem C6_by_author_client (author_name encodedAuthor : string) (w : World)
        (r : Response) (poems : value)
        (Hname : encodeURIComponent author_name = Return encodedAuthor)
        (Hsettle : settlement
                     (upstream w (List.length (requests w))
                               (req_url (author_request encodedAuthor)))
                   = Resolves r)
        (Hok : ok r = true) (Hbody : body r = inr poems) :
  (fst (fetchPoemByAuthor author_name w) = Throw (author_not_found author_name)
   <-> Array_isArray poems = false \/ poems = VArr nil)
  /\ (forall items, poems = VArr items -> items <> nil ->
      let i := Math_floor_times (entropy w (draws w) mod 2 ^ 53)
                                (List.length items) in
      exists poem,
        (i < List.length items)%nat /\ items !! i = Some poem
        /\ (forall poem_content,
              entry_error poem = None ->
              lines_content (property poem "lines") = Return poem_content ->
              exists record,
                fst (fetchPoemByAuthor author_name w) = Return record
                /\ content record = poem_content
                /\ language record = Some english
                /\ source record = Some "PoetryDB"))
  /\ (forall len : nat, (0 < len)%nat -> (Z.of_nat len <= 2 ^ 53)%Z ->
      first_draw (Z.of_nat len) 0 = 0%Z
      /\ first_draw (Z.of_nat len) (Z.of_nat len) = (2 ^ 53)%Z
      /\ (forall i : nat, (i < len)%nat ->
          (forall draw, (0 <= draw < 2 ^ 53)%Z ->
             Math_floor_times draw len = i
             <-> (first_draw (Z.of_nat len) (Z.of_nat i) <= draw
                  < first_draw (Z.of_nat len) (Z.of_nat (S i)))%Z)
          /\ (2 ^ 53 / Z.of_nat len - 1
              <= first_draw (Z.of_nat len) (Z.of_nat (S i))
                 - first_draw (Z.of_nat len) (Z.of_nat i)
              <= 2 ^ 53 / Z.of_nat len + 2)%Z)).
Proof.
  pose proof (fetchPoemByAuthor_on_answer author_name encodedAuthor w r poems
                Hname Hsettle Hok Hbody) as Hrun.
  split; [|split].
  - rewrite Hrun. split.
    + intros H.
      destruct poems as [| | | | |[|first others]|];
        try (left; reflexivity); try (right; reflexivity).
      exfalso.
      destruct (list_entry_outcome (author_record encodedAuthor)
                  (selected w (first :: others))) as [record|e] eqn:He;
        [discriminate H|].
      cbn [rethrow] in H. injection H as H.
      unfold author_failure, author_not_found in H.
      apply append_inj_l, append_inj_l, append_inj_l in H.
      apply list_entry_outcome_throws in He. rewrite H in He.
      discriminate He.
    + intros [H | ->]; [|reflexivity].
      destruct poems as [| | | | |items|]; try reflexivity. discriminate H.
  - intros items -> Hne. cbv zeta.
    destruct (selected_lookup w items Hne) as [Hlt Hsel].
    exists (selected w items). split; [exact Hlt|]. split; [exact Hsel|].
    intros poem_content Herr Hlines.
    exists (author_record encodedAuthor (selected w items) poem_content).
    split; [|repeat split].
    rewrite Hrun. destruct items as [|first others]; [congruence|].
    now rewrite (list_entry_outcome_returns _ _ _ Herr Hlines).
  - intros len. apply near_uniform_selection.
Qed.

Lemma C6_by_author_client_witness :
  (fst (fetchPoemByAuthor "Emily Dickinson" (demo_world (Some english)))
   = Throw (author_not_found "Emily Dickinson")
   <-> Array_isArray demo_poems = false \/ demo_poems = VArr nil).
Proof.
  apply (C6_by_author_client "Emily Dickinson" "Emily%20Dickinson"
           (demo_world (Some english))
           (mkResponse 200 "OK" (inr demo_poems)) demo_poems);
    reflexivity.
Defined.

(** Where the claim as written fails.  PoetryDB answers a query that
    matches nothing with an object, not with an empty array, and the
    client reports the author as not found.  A name with a lone surrogate
    cannot be escaped: the client fails with the engine's error and not
    with the not-found error, though the answer would be the empty array.
    An entry that is null, or whose lines do not convert to strings, gives
    the engine's error where a record was expected; an entry without title
    and author gives a record without them.  And the selection is not
    exactly uniform: of three entries, the first is selected by the
    3002399751580331 draws below that number, the second by the
    3002399751580330 draws from there up to 6004799503160661. *)
Lemma C6_not_found_without_empty_array :
  (settlement (upstream barren_world 0 (req_url (author_request "Nobody")))
   = Resolves (mkResponse 200 "OK" (inr not_found_payload))
   /\ not_found_payload <> VArr nil
   /\ fst (fetchPoemByAuthor "Nobody" barren_world)
      = Throw (author_not_found "Nobody"))
  /\ (fst (fetchPoemByAuthor lone_surrogate_name
                             (answering (Some english) (VArr nil)))
      = Throw (author_failure lone_surrogate_name URI_malformed)
      /\ author_failure lone_surrogate_name URI_malformed
         <> author_not_found lone_surrogate_name)
  /\ fst (fetchPoemByAuthor "Anyone"
            (answering (Some english) (VArr (VNull :: nil))))
     = Throw (author_failure "Anyone"
                "Cannot read properties of null (reading 'title')")
  /\ fst (fetchPoemByAuthor "Anyone"
            (answering (Some english)
               (VArr (VObj (("lines",
                             VArr (VObj (("toString", VNum (Int 1)) :: nil)
                                   :: nil)) :: nil) :: nil))))
     = Throw (author_failure "Anyone" not_primitive)
  /\ (exists poem,
        fst (fetchPoemByAuthor "Anyone" (sparse_world (Some english)))
        = Return poem
        /\ title poem = VUndefined /\ author poem = VUndefined)
  /\ (forall draw, (0 <= draw < 2 ^ 53)%Z ->
      (Math_floor_times draw 3 = 0 <-> (draw < 3002399751580331)%Z)
      /\ (Math_floor_times draw 3 = 1
          <-> (3002399751580331 <= draw < 6004799503160661)%Z)).
Proof.
  split; [|split; [|split; [|split; [|split]]]].
  - split; [reflexivity|]. split; [discriminate|]. vm_compute. reflexivity.
  - split; [vm_compute; reflexivity|].
    unfold author_failure, author_not_found. intros H.
    apply append_inj_l, append_inj_l, append_inj_l in H. discriminate H.
  - vm_compute. reflexivity.
  - vm_compute. reflexivity.
  - eexists. split; [vm_compute; reflexivity|]. split; reflexivity.
  - intros draw Hdraw.
    pose proof (Math_floor_times_interval 3 0 draw ltac:(lia) ltac:(lia)
                  Hdraw) as H0.
    pose proof (Math_floor_times_interval 3 1 draw ltac:(lia) ltac:(lia)
                  Hdraw) as H1.
    assert (E0 : first_draw (Z.of_nat 3) (Z.of_nat 0) = 0%Z)
      by (vm_compute; reflexivity).
    assert (E1 : first_draw (Z.of_nat 3) (Z.of_nat 1) = 3002399751580331%Z)
      by (vm_compute; reflexivity).
    assert (E2 : first_draw (Z.of_nat 3) (Z.of_nat 2) = 6004799503160661%Z)
      by (vm_compute; reflexivity).
    rewrite E0, E1 in H0. rewrite E1, E2 in H1.
    split; [rewrite H0; lia | exact H1].
Qed.

(** Title and author are copied from the entry as they are: where the
    English random client substitutes its defaults, the list clients
    return [undefined]. *)
Example list_clients_copy_title_and_author :
  let w := sparse_world (Some english) in
  (exists poem, fst (fetchPoemByAuthor "Anyone" w) = Return poem
                /\ title poem = VUndefined /\ author poem = VUndefined)
  /\ (exists poem, fst (fetchPoemByLineCount (Int 2) w) = Return poem
                   /\ title poem = VUndefined /\ author poem = VUndefined)
  /\ (exists poem, fst (fetchEnglishPoem w) = Return poem
                   /\ title poem = VStr "Untitled"
                   /\ author poem = VStr "Unknown").
Proof.
  cbv zeta. repeat split; eexists; (split; [vm_compute; reflexivity|]);
    split; reflexivity.
Qed.

(** An author name with a lone surrogate cannot be escaped: the client
    fails before it asks the network anything. *)
Example by_author_malformed_name :
  fetchPoemByAuthor lone_surrogate_name (demo_world (Some english))
  = (Throw (author_failure lone_surrogate_name URI_malformed),
     demo_world (Some english)).
Proof. reflexivity. Qed.

(** An entry whose lines do not convert to strings makes the client fail
    with the engine's error. *)
Example by_author_unprintable_lines :
  fst (fetchPoemByAuthor "Anyone"
         (answering (Some english)
            (VArr (VObj (("lines",
                          VArr (VObj (("toString", VNum (Int 1)) :: nil)
                                :: nil)) :: nil) :: nil))))
  = Throw (author_failure "Anyone" not_primitive).
Proof. vm_compute. reflexivity. Qed.

(** ** Line counts that do not parse *)

(** C10: under the english preference, a category ["linecount/" ++ suffix]
    whose suffix [parseInt] maps to [NaN] is not refused: it is served by
    the by-line-count client for [NaN], which issues the request whose path
    contains [NaN]; and when the upstream answers that request with a 2xx
    non-empty array of entries (none of them null or undefined, their
    lines joining without error), the operation returns a record. *)
Theorem C10_unparsable_line_count (suffix : string) (w : World)
        (Hpref : poemLanguage w = Some english)
        (Hnan : parseInt suffix = NaN) :
  getPoemByCategoryWithLanguage ("linecount/" ++ suffix) w
  = fetchPoemByLineCount NaN w
  /\ requests (snd (getPoemByCategoryWithLanguage ("linecount/" ++ suffix) w))
     = (requests w
        ++ mkFetchRequest
             "https://poetrydb.org/linecount/NaN/title,author,lines" None
        :: nil)%list
  /\ (forall r items,
        settlement
          (upstream w (List.length (requests w))
                    "https://poetrydb.org/linecount/NaN/title,author,lines")
        = Resolves r ->
        ok r = true -> body r = inr (VArr items) -> items <> nil ->
        (forall poem, In poem items ->
           entry_error poem = None
           /\ exists poem_content,
                lines_content (property poem "lines") = Return poem_content) ->
        exists record,
          fst (getPoemByCategoryWithLanguage ("linecount/" ++ suffix) w)
          = Return record).
Proof.
  rewrite (english_linecount_route w Hpref suffix), Hnan.
  split; [reflexivity|]. split.
  - apply (fetchPoemByLineCount_issues NaN).
  - intros r items Hsettle Hok Hbody Hne Hentries.
    destruct (Hentries _ (selected_In w items Hne))
      as [Herr [poem_content Hlines]].
    exists (linecount_record NaN (selected w items) poem_content).
    rewrite (fetchPoemByLineCount_on_answer NaN w r (VArr items)
               Hsettle Hok Hbody).
    destruct items as [|first others]; [congruence|].
    now rewrite (list_entry_outcome_returns _ _ _ Herr Hlines).
Qed.

Lemma C10_unparsable_line_count_witness :
  getPoemByCategoryWithLanguage ("linecount/" ++ "many")
                                (demo_world (Some english))
  = fetchPoemByLineCount NaN (demo_world (Some english))
  /\ requests (snd (getPoemByCategoryWithLanguage
                      ("linecount/" ++ "many") (demo_world (Some english))))
     = mkFetchRequest
         "https://poetrydb.org/linecount/NaN/title,author,lines" None
       :: nil.
Proof.
  destruct (C10_unparsable_line_count "many" (demo_world (Some english))
              eq_refl eq_refl) as (H1 & H2 & _).
  split; [exact H1 | exact H2].
Defined.

Example unparsable_line_count_served :
  fst (getPoemByCategoryWithLanguage "linecount/many"
                                     (demo_world (Some english)))
  = Return {| title := VStr "Hope";
              content := VStr ("a" ++ LF ++ "b");
              author := VStr "Emily Dickinson";
              dynasty := None;
              translation := None;
              source := Some "PoetryDB";
              link := Some "https://poetrydb.org/linecount/NaN";
              language := Some english |}.
Proof. vm_compute. reflexivity. Qed.

(** ** The random and category clients, on a given answer *)

Ltac chinese_cases :=
  unfold try_catch, bind, Response_json, member, ret, throw, chinese_outcome,
    add_prefix, payload_error, plain_random_record, plain_category_record;
  repeat match goal with
         | |- context [settlement ?a] => destruct (settlement a) as [m|r]
         | |- context [ok ?r] => destruct (ok r)
         | |- context [body ?r] => destruct (body r) as [m|data]
         end;
  cbn [negb fst]; try reflexivity;
  try (match goal with data : value |- _ => destruct data end; reflexivity).

Lemma default_not_english (pref : option Language) :
  pref <> Some english -> default chinese pref = chinese.
Proof. destruct pref as [[|]|]; cbn; congruence. Qed.

Lemma default_english (pref : option Language) :
  default chinese pref = english -> pref = Some english.
Proof. destruct pref as [[|]|]; cbn; congruence. Qed.

Lemma getRandomPoemWithLanguage_chinese (w : World) :
  default chinese (poemLanguage w) = chinese ->
  fst (getRandomPoemWithLanguage w)
  = add_prefix "无法获取中文诗词数据: "
      (chinese_outcome
         (fun r => "API请求失败: " ++ Z_toString (status r))
         plain_random_record
         (settlement (upstream w (List.length (requests w))
                               "https://v1.jinrishici.com/all.json"))).
Proof.
  intros Hpref. unfold getRandomPoemWithLanguage.
  rewrite read_preference, Hpref. cbv zeta.
  unfold try_catch. unfold bind at 1. rewrite fetch_untimed.
  chinese_cases.
Qed.

Lemma getPoemByCategoryWithLanguage_chinese (category : string) (w : World) :
  default chinese (poemLanguage w) = chinese ->
  fst (getPoemByCategoryWithLanguage category w)
  = add_prefix "无法获取中文分类诗词数据: "
      (chinese_outcome
         (fun r => "API请求失败: " ++ Z_toString (status r))
         plain_category_record
         (settlement (upstream w (List.length (requests w))
                               (req_url (chinese_category_request category))))).
Proof.
  intros Hpref. unfold getPoemByCategoryWithLanguage.
  rewrite read_preference, Hpref. cbv zeta.
  unfold try_catch. unfold bind at 1. rewrite fetch_untimed.
  change (POEM_API_CONFIG_baseUrl ++ "/" ++ category ++ "."
          ++ POEM_API_CONFIG_format)
    with (req_url (chinese_category_request category)).
  chinese_cases.
Qed.




(** A Chinese client that returns was answered with a JSON payload, and
    returns the record made of it. *)
Lemma chinese_outcome_returns (h : Response -> string) (p : string)
      (record : value -> Completion AssetData) (w : World) (url : string)
      (poem : AssetData) :
  add_prefix p (chinese_outcome h record
                  (settlement (upstream w (List.length (requests w)) url)))
  = Return poem ->
  exists data, payload w url = Some data /\ payload_error data = None
               /\ record data = Return poem.
Proof.
  unfold chinese_outcome, add_prefix, payload.
  destruct (settlement _) as [m|r]; [discriminate|].
  destruct (ok r); cbn [negb]; [|discriminate].
  destruct (body r) as [m|data]; [discriminate|].
  destruct (payload_error data) eqn:He; [discriminate|].
  destruct (record data) as [a|e] eqn:Hr; [|discriminate].
  intros [= <-]. now exists data.
Qed.


Lemma getRandomPoemWithLanguage_returns_chinese (w : World)
      (poem : AssetData) :
  poemLanguage w <> Some english ->
  fst (getRandomPoemWithLanguage w) = Return poem ->
  exists data, payload w "https://v1.jinrishici.com/all.json" = Some data
               /\ poem = chinese_random_record data.
Proof.
  intros Hpref.
  rewrite (getRandomPoemWithLanguage_chinese w (default_not_english _ Hpref)).
  intros H. apply chinese_outcome_returns in H.
  destruct H as (data & Hp & _ & Hr). exists data. split; [exact Hp|].
  unfold plain_random_record in Hr. congruence.
Qed.



(** What the English random client makes of the answer. *)
Lemma fetchEnglishPoem_eq (w : World) :
  fetchEnglishPoem w
  = (add_prefix "无法获取英文诗歌数据: "
       (english_outcome
          (settlement (upstream w (List.length (requests w))
                                "https://poetrydb.org/random/1"))),
     log_request english_random_request w).
Proof.
  unfold fetchEnglishPoem, try_catch. cbv zeta.
  unfold bind at 1. rewrite fetch_untimed.
  change (POETRYDB_API_CONFIG_baseUrl ++ POETRYDB_API_CONFIG_endpoints_random)
    with "https://poetrydb.org/random/1".
  unfold english_outcome, add_prefix.
  destruct (settlement _) as [m|r]; [reflexivity|].
  destruct (ok r); cbn [negb]; [|reflexivity].
  unfold bind at 1, Response_json.
  destruct (body r) as [m|data]; [reflexivity|]. unfold ret at 1.
  destruct data as [| | | | |[|poem rest]|]; try reflexivity.
  unfold english_entry_outcome, bind, member, lift, ret, throw, entry_error.
  destruct poem; try reflexivity;
    destruct (lines_content _); try reflexivity;
    destruct (toString _); try reflexivity;
    destruct (encodeURIComponent _); reflexivity.
Qed.


(** ** Well-formedness of the returned records *)








Lemma getRandomPoemWithLanguage_english (w : World) :
  poemLanguage w = Some english ->
  getRandomPoemWithLanguage w = fetchEnglishPoem w.
Proof.
  intros Hpref. unfold getRandomPoemWithLanguage.
  now rewrite read_preference, Hpref.
Qed.




(** The defaults replace what is falsy, not what is not a string. *)
Example defaults_on_examples :
  or_else VUndefined (VStr "无题") = VStr "无题"
  /\ or_else (VStr "") (VStr "无题") = VStr "无题"
  /\ or_else (VNum (Int 0)) (VStr "无题") = VStr "无题"
  /\ or_else (VNum (Int 7)) (VStr "无题") = VNum (Int 7)
  /\ or_else (VArr nil) (VStr "无题") = VArr nil.
Proof. conjuncts; reflexivity. Qed.

(** * Further properties of the service and the relay *)

(** ** The current index *)

Lemma getCurrentIndex_eq (w : World) :
  getCurrentIndex w
  = (index_of_stored (idb_metadata w !! STORAGE_KEYS_currentIndex), w).
Proof.
  unfold getCurrentIndex, index_of_stored, bind, dbRead, lift, ret.
  cbn [store_of DB_CONFIG_stores_metadata]. cbv zeta.
  destruct (truthy _); [|reflexivity].
  destruct (toString _); reflexivity.
Qed.

(** A stored integer is read back, 0 included. *)
Lemma getCurrentIndex_stored_number (w : World) (n : Z) :
  (- 2 ^ 53 < n < 2 ^ 53)%Z ->
  idb_metadata w !! STORAGE_KEYS_currentIndex = Some (VNum (Int n)) ->
  getCurrentIndex w = (Return (Int n), w).
Proof.
  intros Hn H. rewrite getCurrentIndex_eq, H. unfold index_of_stored.
  cbv zeta.
  change (default VUndefined (Some (VNum (Int n)))) with (VNum (Int n)).
  unfold truthy. destruct (Z.eqb_spec n 0) as [->|Hz]; cbn [negb].
  - reflexivity.
  - cbn [toString]. rewrite (number_toString_safe n Hn).
    now rewrite (parseInt_Z_toString n Hn).
Qed.

(** A current index stored as the decimal numeral of an integer [n] below
    2^53 in magnitude, or as the number [n] itself, is read back as [n],
    zero and negative values included; a stored value that does not
    convert to a string makes [getCurrentIndex] throw the engine's error;
    and reading the index leaves the world as it was. *)
Theorem getCurrentIndex_reads_stored_integer (n : Z) (w : World)
        (Hsafe : (- 2 ^ 53 < n < 2 ^ 53)%Z) :
  (idb_metadata w !! STORAGE_KEYS_currentIndex = Some (VStr (Z_toString n)) ->
   getCurrentIndex w = (Return (Int n), w))
  /\ (idb_metadata w !! STORAGE_KEYS_currentIndex = Some (VNum (Int n)) ->
      getCurrentIndex w = (Return (Int n), w))
  /\ (forall fields,
        idb_metadata w !! STORAGE_KEYS_currentIndex = Some (VObj fields) ->
        hasOwnProperty "toString" fields = true ->
        getCurrentIndex w = (Throw not_primitive, w))
  /\ snd (getCurrentIndex w) = w.
Proof.
  conjuncts.
  - now apply getCurrentIndex_reads_decimal.
  - now apply getCurrentIndex_stored_number.
  - intros fields H Hown. rewrite getCurrentIndex_eq, H.
    unfold index_of_stored. cbv zeta.
    change (default VUndefined (Some (VObj fields))) with (VObj fields).
    cbn [truthy toString]. now rewrite Hown.
  - now rewrite getCurrentIndex_eq.
Qed.

Lemma getCurrentIndex_reads_stored_integer_witness :
  getCurrentIndex
    (with_store metadata {[ STORAGE_KEYS_currentIndex := VStr "-12" ]}
                (demo_world None))
  = (Return (Int (-12)),
     with_store metadata {[ STORAGE_KEYS_currentIndex := VStr "-12" ]}
                (demo_world None)).
Proof.
  apply (proj1 (getCurrentIndex_reads_stored_integer (-12)
                  (with_store metadata
                     {[ STORAGE_KEYS_currentIndex := VStr "-12" ]}
                     (demo_world None))
                  ltac:(lia))).
  reflexivity.
Defined.

(** Beyond 2^53 a stored number need not be read back: 10^21 renders with
    an exponent, of which [parseInt] reads the first digit. *)
Example getCurrentIndex_large_number :
  fst (getCurrentIndex
         (with_store metadata
            {[ STORAGE_KEYS_currentIndex := VNum (Int (10 ^ 21)) ]}
            (demo_world None)))
  = Return (Int 1).
Proof. vm_compute. reflexivity. Qed.

(** Clearing the metadata ([clearCache('all')], [clearCache('metadata')])
    resets the current index to 0 whatever was stored; clearing the images
    only leaves it as it was; no variant touches the language preference;
    and clearing all is clearing the images, then the metadata. *)
Theorem clearCache_current_index (w : World) :
  fst (getCurrentIndex (snd (clearCache cache_all w))) = Return (Int 0)
  /\ fst (getCurrentIndex (snd (clearCache cache_metadata w)))
     = Return (Int 0)
  /\ fst (getCurrentIndex (snd (clearCache cache_images w)))
     = fst (getCurrentIndex w)
  /\ (forall cacheType,
        poemLanguage (snd (clearCache cacheType w)) = poemLanguage w)
  /\ snd (clearCache cache_all w)
     = snd (clearCache cache_metadata (snd (clearCache cache_images w))).
Proof.
  conjuncts.
  - rewrite getCurrentIndex_eq. reflexivity.
  - rewrite getCurrentIndex_eq. reflexivity.
  - rewrite !getCurrentIndex_eq. reflexivity.
  - intros cacheType. destruct cacheType; reflexivity.
  - reflexivity.
Qed.

(** ** Failures of the clients *)

Lemma try_catch_wraps {A : Type} (body : Async A) (prefix : string) :
  fails_only (wrapped prefix)
             (try_catch body (fun message => throw (prefix ++ message))).
Proof.
  intros w e. unfold try_catch.
  destruct (body w) as [[a|m] w']; cbn [fst throw]; [discriminate|].
  intros [= <-]. now exists m.
Qed.

Lemma string_append_assoc (a b c : string) : (a ++ b) ++ c = a ++ b ++ c.
Proof.
  induction a as [|x a IH]; [reflexivity|].
  rewrite !append_cons. now f_equal.
Qed.

(** The same for the two clients whose prefix names the query. *)
Lemma try_catch_wraps_query {A : Type} (body : Async A) (a q b : string) :
  fails_only (wrapped (a ++ q ++ b))
             (try_catch body (fun message => throw (a ++ q ++ b ++ message))).
Proof.
  intros w e. unfold try_catch.
  destruct (body w) as [[x|m] w']; cbn [fst throw]; [discriminate|].
  intros [= <-]. exists m. now rewrite !string_append_assoc.
Qed.

Lemma wrapped_weaken (p q e : string) : wrapped (p ++ q) e -> wrapped p e.
Proof.
  intros [cause ->]. exists (q ++ cause).
  induction p as [|c p IH]; [reflexivity|].
  rewrite !append_cons. now f_equal.
Qed.

Lemma getRandomPoem_fails :
  fails_only (wrapped "无法获取诗词数据: ") getRandomPoem.
Proof. unfold getRandomPoem. apply try_catch_wraps. Qed.

Lemma getPoemByCategory_fails (category : string) :
  fails_only (wrapped "无法获取分类诗词数据: ") (getPoemByCategory category).
Proof. unfold getPoemByCategory. apply try_catch_wraps. Qed.

Lemma fetchEnglishPoem_fails :
  fails_only (wrapped "无法获取英文诗歌数据: ") fetchEnglishPoem.
Proof. unfold fetchEnglishPoem. apply try_catch_wraps. Qed.

Lemma fetchPoemByAuthor_fails (name : string) :
  fails_only (wrapped ("无法获取" ++ name ++ "的诗歌数据: "))
             (fetchPoemByAuthor name).
Proof. unfold fetchPoemByAuthor. apply try_catch_wraps_query. Qed.

Lemma fetchPoemByLineCount_fails (n : number) :
  fails_only (wrapped ("无法获取" ++ number_toString n ++ "行的诗歌数据: "))
             (fetchPoemByLineCount n).
Proof. unfold fetchPoemByLineCount. apply try_catch_wraps_query. Qed.

Lemma getRandomPoemWithLanguage_fails_chinese (w : World) (e : string) :
  poemLanguage w <> Some english ->
  fst (getRandomPoemWithLanguage w) = Throw e ->
  wrapped "无法获取中文诗词数据: " e.
Proof.
  intros Hpref. unfold getRandomPoemWithLanguage.
  rewrite read_preference, (default_not_english _ Hpref).
  apply (try_catch_wraps _ _ w e).
Qed.

Lemma getPoemByCategoryWithLanguage_fails_chinese (category : string)
      (w : World) (e : string) :
  poemLanguage w <> Some english ->
  fst (getPoemByCategoryWithLanguage category w) = Throw e ->
  wrapped "无法获取中文分类诗词数据: " e.
Proof.
  intros Hpref. unfold getPoemByCategoryWithLanguage.
  rewrite read_preference, (default_not_english _ Hpref).
  apply (try_catch_wraps _ _ w e).
Qed.

(** Every failure of a client carries the client's own prefix in front of
    its cause (the network's rejection, the HTTP status, the parser's or the
    engine's message); the language-routed operations carry the prefix of
    the branch the preference and the category select.  The one failure
    that no client wraps is the invalid index of [getPoem]. *)
Theorem client_failures_are_wrapped (w : World) (e : string) :
  (fst (getRandomPoem w) = Throw e -> wrapped "无法获取诗词数据: " e)
  /\ (forall category,
        fst (getPoemByCategory category w) = Throw e ->
        wrapped "无法获取分类诗词数据: " e)
  /\ (fst (fetchEnglishPoem w) = Throw e ->
      wrapped "无法获取英文诗歌数据: " e)
  /\ (forall name,
        fst (fetchPoemByAuthor name w) = Throw e ->
        wrapped ("无法获取" ++ name ++ "的诗歌数据: ") e)
  /\ (forall n,
        fst (fetchPoemByLineCount n w) = Throw e ->
        wrapped ("无法获取" ++ number_toString n ++ "行的诗歌数据: ") e)
  /\ (fst (getRandomPoemWithLanguage w) = Throw e ->
      (poemLanguage w = Some english -> wrapped "无法获取英文诗歌数据: " e)
      /\ (poemLanguage w <> Some english ->
          wrapped "无法获取中文诗词数据: " e))
  /\ (forall category,
        fst (getPoemByCategoryWithLanguage category w) = Throw e ->
        (poemLanguage w <> Some english ->
         wrapped "无法获取中文分类诗词数据: " e)
        /\ (poemLanguage w = Some english ->
            (forall name, category = "author/" ++ name ->
               wrapped ("无法获取" ++ name ++ "的诗歌数据: ") e)
            /\ (forall suffix, category = "linecount/" ++ suffix ->
                  wrapped ("无法获取" ++ number_toString (parseInt suffix)
                           ++ "行的诗歌数据: ") e)
            /\ (startsWith category "author/" = false ->
                startsWith category "linecount/" = false ->
                wrapped "无法获取英文诗歌数据: " e)))
  /\ (forall index,
        fst (getPoem index w) = Throw e ->
        (index = (-1)%Z -> wrapped "无法获取诗词数据: " e)
        /\ (index <> (-1)%Z -> wrapped "无效的诗词索引: " e)).
Proof.
  conjuncts.
  - apply getRandomPoem_fails.
  - intros category. apply getPoemByCategory_fails.
  - apply fetchEnglishPoem_fails.
  - intros name. apply fetchPoemByAuthor_fails.
  - intros n. apply fetchPoemByLineCount_fails.
  - intros H. split; intros Hpref.
    + rewrite (getRandomPoemWithLanguage_english w Hpref) in H.
      exact (fetchEnglishPoem_fails w e H).
    + exact (getRandomPoemWithLanguage_fails_chinese w e Hpref H).
  - intros category H. split; [|intros Hpref; conjuncts].
    + intros Hpref.
      exact (getPoemByCategoryWithLanguage_fails_chinese category w e Hpref H).
    + intros name ->. rewrite (english_author_route w Hpref name) in H.
      exact (fetchPoemByAuthor_fails name w e H).
    + intros suffix ->. rewrite (english_linecount_route w Hpref suffix) in H.
      exact (fetchPoemByLineCount_fails _ w e H).
    + intros Ha Hl. rewrite (english_default_route w Hpref category Ha Hl) in H.
      exact (fetchEnglishPoem_fails w e H).
  - intros index. unfold getPoem.
    destruct (Z.eqb_spec index (-1)) as [->|Hne].
    + intros H. split; [|congruence]. intros _.
      exact (getRandomPoem_fails w e H).
    + destruct ((0 <=? index)%Z && _); [discriminate|].
      intros [= <-]. split; [congruence|]. intros _. now eexists.
Qed.

Lemma client_failures_are_wrapped_witness :
  wrapped "无法获取英文诗歌数据: "
          ("无法获取英文诗歌数据: " ++ "无效的PoetryDB响应数据").
Proof.
  apply (proj1 (proj2 (proj2 (client_failures_are_wrapped barren_world _)))).
  vm_compute. reflexivity.
Defined.

(** The causes include the engine's own errors: a payload whose content
    does not convert to a string makes [getRandomPoem] fail where it logs
    the poem, though the language-routed copy of the same fetch returns
    it. *)
Example getRandomPoem_unprintable_content :
  fst (getRandomPoem (answering None unprintable_payload))
  = Throw ("无法获取诗词数据: " ++ not_primitive)
  /\ exists poem,
       fst (getRandomPoemWithLanguage (answering None unprintable_payload))
       = Return poem.
Proof. split; [|eexists]; vm_compute; reflexivity. Qed.

(** ** The language-routed operations *)



Lemma getPoemByCategoryWithLanguage_issues (category : string) (w : World) :
  requests (snd (getPoemByCategoryWithLanguage category w))
  = (requests w
     ++ category_requests (default chinese (poemLanguage w)) category)%list.
Proof.
  unfold getPoemByCategoryWithLanguage. rewrite read_preference.
  destruct (default chinese (poemLanguage w)).
  - match goal with |- requests (snd (?m w)) = _ =>
      assert (H : issues (chinese_category_request category :: nil) m)
        by effects
    end.
    apply H.
  - unfold category_requests. cbv zeta.
    destruct (startsWith category "author/");
      [apply fetchPoemByAuthor_issues|].
    destruct (startsWith category "linecount/");
      [apply fetchPoemByLineCount_issues|].
    destruct (String.eqb category "random" || String.eqb category "all");
      apply fetchEnglishPoem_issues.
Qed.

(** Under a preference other than english (chinese, or never set) the
    category is put into the URL as it is, and a response outside 200..299
    makes the operation fail with the status in its message, after that
    one request. *)
Theorem chinese_category_http_error (category : string) (w : World)
        (r : Response)
        (Hpref : poemLanguage w <> Some english)
        (Hsettle : settlement
                     (upstream w (List.length (requests w))
                        ("https://v1.jinrishici.com/" ++ category ++ ".json"))
                   = Resolves r)
        (Hstatus : (status r < 200 \/ 299 < status r)%Z) :
  fst (getPoemByCategoryWithLanguage category w)
  = Throw ("无法获取中文分类诗词数据: " ++ "API请求失败: "
           ++ Z_toString (status r))
  /\ requests (snd (getPoemByCategoryWithLanguage category w))
     = (requests w
        ++ mkFetchRequest
             ("https://v1.jinrishici.com/" ++ category ++ ".json") None
        :: nil)%list.
Proof.
  pose proof (default_not_english _ Hpref) as Hd. split.
  - rewrite (getPoemByCategoryWithLanguage_chinese category w Hd).
    change (req_url (chinese_category_request category))
      with ("https://v1.jinrishici.com/" ++ category ++ ".json").
    rewrite Hsettle. unfold chinese_outcome, ok.
    replace ((200 <=? status r)%Z && (status r <=? 299)%Z) with false
      by (symmetry; apply andb_false_iff; lia).
    reflexivity.
  - rewrite getPoemByCategoryWithLanguage_issues, Hd. reflexivity.
Qed.

Lemma chinese_category_http_error_witness :
  fst (getPoemByCategoryWithLanguage "spring" barren_404_world)
  = Throw ("无法获取中文分类诗词数据: " ++ "API请求失败: " ++ Z_toString 404).
Proof.
  apply (chinese_category_http_error "spring" barren_404_world
           (mkResponse 404 "Not Found" (inl "Unexpected token")));
    [discriminate | reflexivity | cbn; lia].
Defined.



(** The random operation follows the preference: under english it is the
    English random client; under chinese, or when no preference was ever
    stored, it asks the Chinese service for [all.json], without a timer,
    and what it returns is built with the Chinese mapping. *)
Theorem random_poem_language_routing (w : World) :
  (poemLanguage w = Some english ->
   getRandomPoemWithLanguage w = fetchEnglishPoem w)
  /\ (poemLanguage w <> Some english ->
      requests (snd (getRandomPoemWithLanguage w))
      = (requests w ++ chinese_untimed_request :: nil)%list
      /\ forall poem,
           fst (getRandomPoemWithLanguage w) = Return poem ->
           chinese_mapped poem /\ dynasty poem = Some (VStr "")).
Proof.
  split.
  - apply getRandomPoemWithLanguage_english.
  - intros Hpref. pose proof (default_not_english _ Hpref) as Hd. split.
    + now rewrite getRandomPoemWithLanguage_issues, Hd.
    + intros poem H.
      destruct (getRandomPoemWithLanguage_returns_chinese w poem Hpref H)
        as (data & _ & ->).
      split; [mapped|reflexivity].
Qed.

Lemma random_poem_language_routing_witness :
  getRandomPoemWithLanguage (demo_world (Some english))
  = fetchEnglishPoem (demo_world (Some english))
  /\ requests (snd (getRandomPoemWithLanguage (demo_world None)))
     = chinese_untimed_request :: nil.
Proof.
  split.
  - apply (proj1 (random_poem_language_routing (demo_world (Some english)))).
    reflexivity.
  - apply (proj2 (random_poem_language_routing (demo_world None))).
    discriminate.
Defined.

Lemma category_requests_shape (pref : Language) (category : string) :
  (List.length (category_requests pref category) <= 1)%nat
  /\ (forall request, In request (category_requests pref category) ->
        req_abort_after request = None)
  /\ (category_requests pref category = nil
      <-> pref = english /\ startsWith category "author/" = true
          /\ exists e, encodeURIComponent
                         (String_replace "author/" "" category) = Throw e).
Proof.
  unfold category_requests. destruct pref.
  - conjuncts; [cbn; lia | intros request [<-|[]]; reflexivity |].
    split; [discriminate | intros [H _]; discriminate H].
  - destruct (startsWith category "author/") eqn:Ha.
    + destruct (encodeURIComponent _) as [encodedAuthor|e] eqn:He.
      * conjuncts; [cbn; lia | intros request [<-|[]]; reflexivity |].
        split; [discriminate | intros (_ & _ & e & H); discriminate H].
      * conjuncts; [cbn; lia | intros request [] |].
        split; [intros _; conjuncts; eauto | reflexivity].
    + destruct (startsWith category "linecount/");
        (conjuncts; [cbn; lia | intros request [<-|[]]; reflexivity |]);
        (split; [discriminate | intros (_ & H & _); discriminate H]).
Qed.



Example category_with_malformed_author :
  requests (snd (getPoemByCategoryWithLanguage
                   ("author/" ++ lone_surrogate_name)
                   (demo_world (Some english))))
  = nil.
Proof. vm_compute. reflexivity. Qed.

(** ** The English clients, on a given answer *)

Lemma fetchEnglishPoem_on_answer (w : World) (r : Response) (data : value) :
  settlement (upstream w (List.length (requests w))
                       "https://poetrydb.org/random/1") = Resolves r ->
  ok r = true -> body r = inr data ->
  fetchEnglishPoem w
  = (add_prefix "无法获取英文诗歌数据: "
       match data with
       | VArr (poem :: _) => english_entry_outcome poem
       | _ => Throw "无效的PoetryDB响应数据"
       end, log_request english_random_request w).
Proof.
  intros Hsettle Hok Hbody. rewrite fetchEnglishPoem_eq.
  unfold english_outcome. now rewrite Hsettle, Hok, Hbody.
Qed.

(** The failures of the first entry are the engine's, in English. *)
Lemma english_entry_outcome_throws (poem : value) (e : string) :
  english_entry_outcome poem = Throw e ->
  String.prefix "Cannot " e = true \/ e = URI_malformed.
Proof.
  unfold english_entry_outcome.
  destruct (entry_error poem) as [e'|] eqn:He.
  { intros [= <-]. left. destruct poem; try discriminate He;
      injection He as <-; reflexivity. }
  destruct (lines_content _) as [c|e'] eqn:Hl.
  2:{ intros [= <-]. left. now rewrite (lines_content_throws _ _ Hl). }
  destruct (toString _) as [t|e'] eqn:Ht.
  2:{ intros [= <-]. left. now rewrite (toString_throws _ _ Ht). }
  unfold encodeURIComponent.
  destruct (lone_surrogate t); [|discriminate].
  intros [= <-]. now right.
Qed.

(** Given a 2xx JSON answer, the English random client fails with its
    invalid-response error exactly when the answer is not an array or is
    the empty array; otherwise it works on the first entry alone, whatever
    follows it: when that entry is neither null nor undefined, its lines
    join and its title converts and escapes without error, the record
    returned is made of it, with "Untitled" and "Unknown" for a falsy
    title and author.  The client draws no random number, and its one
    effect is the request. *)
Theorem fetchEnglishPoem_uses_first_entry (w : World) (r : Response)
        (data : value)
        (Hsettle : settlement
                     (upstream w (List.length (requests w))
                               "https://poetrydb.org/random/1")
                   = Resolves r)
        (Hok : ok r = true) (Hbody : body r = inr data) :
  (fst (fetchEnglishPoem w)
   = Throw ("无法获取英文诗歌数据: " ++ "无效的PoetryDB响应数据")
   <-> Array_isArray data = false \/ data = VArr nil)
  /\ (forall poem rest poem_content title_text encodedTitle,
      data = VArr (poem :: rest) ->
      entry_error poem = None ->
      lines_content (property poem "lines") = Return poem_content ->
      toString (property poem "title") = Return title_text ->
      encodeURIComponent title_text = Return encodedTitle ->
      fst (fetchEnglishPoem w)
      = Return {| title := or_else (property poem "title") (VStr "Untitled");
                  content := poem_content;
                  author := or_else (property poem "author") (VStr "Unknown");
                  dynasty := None;
                  translation := None;
                  source := Some "PoetryDB";
                  link := Some ("https://poetrydb.org/title/" ++ encodedTitle);
                  language := Some english |}
      /\ truthy (or_else (property poem "title") (VStr "Untitled")) = true
      /\ truthy (or_else (property poem "author") (VStr "Unknown")) = true)
  /\ snd (fetchEnglishPoem w) = log_request english_random_request w.
Proof.
  rewrite (fetchEnglishPoem_on_answer w r data Hsettle Hok Hbody).
  cbn [fst snd]. conjuncts; [| |reflexivity].
  - split.
    + intros H.
      destruct data as [| | | | |[|poem rest]|];
        try (left; reflexivity); try (right; reflexivity).
      exfalso.
      destruct (english_entry_outcome poem) as [record|e] eqn:He;
        [discriminate H|].
      cbn [add_prefix] in H. injection H as H. apply append_inj_l in H.
      destruct (english_entry_outcome_throws poem e He) as [Hc | ->];
        [rewrite H in Hc|]; discriminate.
    + intros [H | ->]; [|reflexivity].
      destruct data as [| | | | |items|]; try reflexivity. discriminate H.
  - intros poem rest poem_content title_text encodedTitle -> Herr Hlines
           Htitle Hencode.
    unfold english_entry_outcome.
    rewrite Herr, Hlines, Htitle, Hencode.
    split; [reflexivity|]. split; apply truthy_or_else; reflexivity.
Qed.

Lemma fetchEnglishPoem_uses_first_entry_witness :
  fst (fetchEnglishPoem (demo_world (Some english)))
  = Throw ("无法获取英文诗歌数据: " ++ "无效的PoetryDB响应数据")
  <-> Array_isArray demo_poems = false \/ demo_poems = VArr nil.
Proof.
  apply (fetchEnglishPoem_uses_first_entry (demo_world (Some english))
           (mkResponse 200 "OK" (inr demo_poems)) demo_poems);
    reflexivity.
Defined.

(** The link of an English random record is built from the title as
    received: when the first entry has no title (and lines that join), the
    record returned is titled "Untitled" while its link ends in
    [undefined]. *)
Theorem english_link_of_untitled_entry (w : World) (r : Response)
        (poem poem_content : value) (rest : list value)
        (Hsettle : settlement
                     (upstream w (List.length (requests w))
                               "https://poetrydb.org/random/1")
                   = Resolves r)
        (Hok : ok r = true) (Hbody : body r = inr (VArr (poem :: rest)))
        (Hentry : entry_error poem = None)
        (Hlines : lines_content (property poem "lines") = Return poem_content)
        (Htitle : property poem "title" = VUndefined) :
  exists record,
    fst (fetchEnglishPoem w) = Return record
    /\ title record = VStr "Untitled"
    /\ content record = poem_content
    /\ link record = Some "https://poetrydb.org/title/undefined".
Proof.
  exists (english_record poem poem_content "undefined").
  rewrite (fetchEnglishPoem_on_answer w r _ Hsettle Hok Hbody).
  unfold english_entry_outcome. rewrite Hentry, Hlines, Htitle.
  unfold english_record. cbn [fst title link content]. rewrite Htitle.
  repeat split.
Qed.

Lemma english_link_of_untitled_entry_witness :
  exists record,
    fst (fetchEnglishPoem (sparse_world (Some english))) = Return record
    /\ title record = VStr "Untitled"
    /\ content record = VStr ("a" ++ LF ++ "b")
    /\ link record = Some "https://poetrydb.org/title/undefined".
Proof.
  apply (english_link_of_untitled_entry (sparse_world (Some english))
           (mkResponse 200 "OK"
              (inr (VArr (VObj (("lines", VArr (VStr "a" :: VStr "b" :: nil))
                                :: nil) :: nil))))
           (VObj (("lines", VArr (VStr "a" :: VStr "b" :: nil)) :: nil))
           (VStr ("a" ++ LF ++ "b")) nil);
    reflexivity.
Defined.

(** Given a 2xx JSON answer, the by-line-count client, for any line count
    (negative or [NaN] included), fails with the not-found error naming
    that count exactly when the answer is not an array or is the empty
    array; on a non-empty array the entry it selects, at index
    floor(random * length), is one of the array, and from an entry that is
    neither null nor undefined, and whose lines join without error, it
    returns the record made of that entry. *)
Theorem fetchPoemByLineCount_selects (lineCount : number) (w : World)
        (r : Response) (poems : value)
        (Hsettle : settlement
                     (upstream w (List.length (requests w))
                               (req_url (linecount_request lineCount)))
                   = Resolves r)
        (Hok : ok r = true) (Hbody : body r = inr poems) :
  (fst (fetchPoemByLineCount lineCount w)
   = Throw (linecount_not_found lineCount)
   <-> Array_isArray poems = false \/ poems = VArr nil)
  /\ (forall items, poems = VArr items -> items <> nil ->
      In (selected w items) items
      /\ (forall poem_content,
            entry_error (selected w items) = None ->
            lines_content (property (selected w items) "lines")
            = Return poem_content ->
            fst (fetchPoemByLineCount lineCount w)
            = Return {| title := property (selected w items) "title";
                        content := poem_content;
                        author := property (selected w items) "author";
                        dynasty := None;
                        translation := None;
                        source := Some "PoetryDB";
                        link := Some ("https://poetrydb.org/linecount/"
                                      ++ number_toString lineCount);
                        language := Some english |})).
Proof.
  pose proof (fetchPoemByLineCount_on_answer lineCount w r poems
                Hsettle Hok Hbody) as Hrun.
  split.
  - rewrite Hrun. split.
    + intros H.
      destruct poems as [| | | | |[|first others]|];
        try (left; reflexivity); try (right; reflexivity).
      exfalso.
      destruct (list_entry_outcome (linecount_record lineCount)
                  (selected w (first :: others))) as [record|e] eqn:He;
        [discriminate H|].
      cbn [rethrow] in H. injection H as H.
      unfold linecount_failure, linecount_not_found in H.
      apply append_inj_l, append_inj_l, append_inj_l in H.
      apply list_entry_outcome_throws in He. rewrite H in He.
      discriminate He.
    + intros [H | ->]; [|reflexivity].
      destruct poems as [| | | | |items|]; try reflexivity. discriminate H.
  - intros items -> Hne. split; [now apply selected_In|].
    intros poem_content Herr Hlines. rewrite Hrun.
    destruct items as [|first others]; [congruence|].
    now rewrite (list_entry_outcome_returns _ _ _ Herr Hlines).
Qed.

Lemma fetchPoemByLineCount_selects_witness :
  fst (fetchPoemByLineCount (Int 14) (demo_world (Some english)))
  = Throw (linecount_not_found (Int 14))
  <-> Array_isArray demo_poems = false \/ demo_poems = VArr nil.
Proof.
  apply (fetchPoemByLineCount_selects (Int 14) (demo_world (Some english))
           (mkResponse 200 "OK" (inr demo_poems)) demo_poems);
    reflexivity.
Defined.

(** Under the english preference the category ["linecount/" ++ String(n)]
    reaches PoetryDB with the same integer in the path, for every integer
    [n] below 2^53 in magnitude, negative ones included: the count is
    parsed, not checked. *)
Theorem linecount_route_reads_decimal (n : Z) (w : World)
        (Hsafe : (- 2 ^ 53 < n < 2 ^ 53)%Z)
        (Hpref : poemLanguage w = Some english) :
  getPoemByCategoryWithLanguage ("linecount/" ++ Z_toString n) w
  = fetchPoemByLineCount (Int n) w
  /\ requests (snd (getPoemByCategoryWithLanguage
                      ("linecount/" ++ Z_toString n) w))
     = (requests w
        ++ mkFetchRequest ("https://poetrydb.org/linecount/"
                           ++ Z_toString n ++ "/title,author,lines") None
        :: nil)%list.
Proof.
  rewrite (english_linecount_route w Hpref), (parseInt_Z_toString n Hsafe).
  split; [reflexivity|].
  rewrite <- (number_toString_safe n Hsafe).
  apply (fetchPoemByLineCount_issues (Int n)).
Qed.

Lemma linecount_route_reads_decimal_witness :
  requests (snd (getPoemByCategoryWithLanguage
                   ("linecount/" ++ Z_toString (-3))
                   (demo_world (Some english))))
  = mkFetchRequest ("https://poetrydb.org/linecount/" ++ Z_toString (-3)
                    ++ "/title,author,lines") None :: nil.
Proof.
  apply (proj2 (linecount_route_reads_decimal (-3)
                  (demo_world (Some english)) ltac:(lia) eq_refl)).
Defined.

(** A count beyond 2^53 reaches PoetryDB rounded, and from 10^21 on with
    an exponent in the path. *)
Example linecount_route_large_count :
  requests (snd (getPoemByCategoryWithLanguage
                   "linecount/9007199254740993"
                   (demo_world (Some english))))
  = mkFetchRequest
      "https://poetrydb.org/linecount/9007199254740992/title,author,lines"
      None :: nil
  /\ requests (snd (getPoemByCategoryWithLanguage
                      "linecount/1000000000000000000000"
                      (demo_world (Some english))))
     = mkFetchRequest
         "https://poetrydb.org/linecount/1e+21/title,author,lines" None
       :: nil.
Proof. split; vm_compute; reflexivity. Qed.

(** The Chinese category, by contrast with the author name, goes into the
    URL unescaped. *)
Example chinese_category_unescaped :
  requests (snd (getPoemByCategoryWithLanguage "a/b?c" (demo_world None)))
  = mkFetchRequest "https://v1.jinrishici.com/a/b?c.json" None :: nil.
Proof. vm_compute. reflexivity. Qed.

(** ** The relay *)

Lemma onMessage_eq (request : Message) (w : World) :
  onMessage request w
  = (match fst (handleRequest request w) with
     | Return response => Success response
     | Throw message => Failure message
     end, snd (handleRequest request w)).
Proof.
  unfold onMessage. destruct (handleRequest request w) as [[r|m] w'];
    reflexivity.
Qed.

Lemma handleRequest_preserves (request : Message) :
  preserves (handleRequest request).
Proof.
  unfold handleRequest.
  repeat match goal with
         | |- preserves (if ?b then _ else _) => destruct b
         end;
    try apply preserves_throw;
    apply preserves_bind; intros;
    auto using preserves_ret, getRandomPoemWithLanguage_preserves,
      getPoemByCategoryWithLanguage_preserves, getPoem_preserves,
      getCurrentIndex_preserves.
Qed.

Lemma relay_never_writes_any (request : Message) (w : World) :
  persisted (snd (onMessage request w)) = persisted w.
Proof.
  rewrite onMessage_eq. cbn [snd]. apply handleRequest_preserves.
Qed.

(** No message, of a known type or not, makes the relay change the
    persisted state: the language preference and both stores are after the
    response what they were before the request. *)
Theorem relay_never_writes (request : Message) (w : World) :
  persisted (snd (onMessage request w)) = persisted w.
Proof. apply relay_never_writes_any. Qed.

Lemma requests_bind_ret {A B : Type} (m : Async A) (f : A -> B) (w : World) :
  requests (snd (bind m (fun a => ret (f a)) w)) = requests (snd (m w)).
Proof. unfold bind, ret. destruct (m w) as [[a|e] w']; reflexivity. Qed.

(** Serving a message costs at most one request, whatever the message:
    the random message exactly the random request of the preferred
    service, [GET_POEM] the timed request to the Chinese service for the
    index -1 and none for another index, the category message at most
    one, and every other message none. *)
Theorem relay_issues_at_most_one_request (request : Message) (w : World) :
  exists issued,
    requests (snd (onMessage request w)) = (requests w ++ issued)%list
    /\ (List.length issued <= 1)%nat
    /\ (msg_type request = "GET_RANDOM_POEM" ->
        issued = match default chinese (poemLanguage w) with
                 | english => english_random_request
                 | chinese => chinese_untimed_request
                 end :: nil)
    /\ (msg_type request = "GET_POEM" ->
        issued = if (msg_index request =? -1)%Z
                 then chinese_random_request :: nil else nil)
    /\ (msg_type request <> "GET_RANDOM_POEM" ->
        msg_type request <> "GET_POEM_BY_CATEGORY" ->
        msg_type request <> "GET_POEM" ->
        issued = nil).
Proof.
  rewrite onMessage_eq. cbn [snd]. unfold handleRequest.
  destruct (String.eqb_spec (msg_type request) "GET_RANDOM_POEM") as [E1|N1].
  { eexists. split; [rewrite requests_bind_ret;
                     apply getRandomPoemWithLanguage_issues|].
    conjuncts; [cbn; lia | reflexivity | | ]; intros; congruence. }
  destruct (String.eqb_spec (msg_type request) "GET_POEM_BY_CATEGORY")
    as [E2|N2].
  { eexists. split; [rewrite requests_bind_ret;
                     apply getPoemByCategoryWithLanguage_issues|].
    conjuncts; [apply category_requests_shape | | | ]; intros; congruence. }
  destruct (String.eqb_spec (msg_type request) "GET_POEM") as [E3|N3].
  { exists (if (msg_index request =? -1)%Z
            then chinese_random_request :: nil else nil).
    split.
    - rewrite requests_bind_ret. unfold getPoem.
      destruct (msg_index request =? -1)%Z; [apply getRandomPoem_issues|].
      destruct ((0 <=? msg_index request)%Z && _); cbn;
        now rewrite app_nil_r.
    - conjuncts; [destruct (msg_index request =? -1)%Z; cbn; lia | |
                  reflexivity | ]; intros; congruence. }
  exists nil. split.
  - destruct (String.eqb (msg_type request) "GET_CURRENT_INDEX").
    + rewrite requests_bind_ret, getCurrentIndex_eq. cbn.
      now rewrite app_nil_r.
    + cbn. now rewrite app_nil_r.
  - conjuncts; [cbn; lia | | | ]; intros; congruence.
Qed.

Lemma relay_issues_at_most_one_request_witness :
  exists issued,
    requests (snd (onMessage (mkMessage "GET_POEM" "" (-1)) (demo_world None)))
    = (requests (demo_world None) ++ issued)%list
    /\ issued = chinese_random_request :: nil.
Proof.
  destruct (relay_issues_at_most_one_request (mkMessage "GET_POEM" "" (-1))
              (demo_world None)) as (issued & H & _ & _ & Hpoem & _).
  exists issued. split; [exact H|]. apply Hpoem. reflexivity.
Defined.

(** [GET_CURRENT_INDEX] commutes with every message: whether the relay
    serves it before or after another message, both get the same answers
    and the world ends up the same. *)
Theorem current_index_request_commutes (request : Message) (w : World) :
  let get := mkMessage "GET_CURRENT_INDEX" "" 0 in
  let first_get := onMessage get w in
  let then_other := onMessage request (snd first_get) in
  let first_other := onMessage request w in
  let then_get := onMessage get (snd first_other) in
  fst first_get = fst then_get
  /\ fst then_other = fst first_other
  /\ snd then_other = snd then_get.
Proof.
  cbv zeta.
  assert (Hget : forall w0,
             onMessage (mkMessage "GET_CURRENT_INDEX" "" 0) w0
             = (match index_of_stored
                        (idb_metadata w0 !! STORAGE_KEYS_currentIndex) with
                | Return n => Success (NumberData n)
                | Throw e => Failure e
                end, w0)).
  { intros w0. rewrite onMessage_eq.
    change (handleRequest (mkMessage "GET_CURRENT_INDEX" "" 0))
      with (bind getCurrentIndex (fun n => ret (NumberData n))).
    unfold bind. rewrite getCurrentIndex_eq.
    destruct (index_of_stored _); reflexivity. }
  rewrite !Hget. cbn [fst snd]. conjuncts; try reflexivity.
  pose proof (relay_never_writes_any request w) as Hp.
  unfold persisted in Hp. injection Hp as _ _ Hmeta. now rewrite Hmeta.
Qed.

(** The index served is what the store holds: a stored value that does
    not convert to a string is answered with a failure envelope. *)
Example relay_unprintable_index :
  fst (onMessage (mkMessage "GET_CURRENT_INDEX" "" 0)
         (with_store metadata
            {[ STORAGE_KEYS_currentIndex
               := VObj (("toString", VNum (Int 1)) :: nil) ]}
            (demo_world None)))
  = Failure "Cannot convert object to primitive value".
Proof. vm_compute. reflexivity. Qed.
